(** * AIFORU: document question answering over a vector index

    Shallow embedding of [src/main.py]: the chunking policy configured in
    [process_document], the build of the question-answering chain, and the
    session state machine that [main] runs on every script execution. *)

From Stdlib Require Import Ascii String.
From Stdlib Require Import List ZArith Lia Bool Arith.
From Stdlib Require Import Sorting.Permutation Sorting.Sorted.
Import ListNotations.

(** ** Python [str] values

    Document text is a sequence of characters; the operations below are the
    [str] methods the chunking code calls. *)

Module Str.

Definition text := list ascii.

Definition lit (s : string) : text := list_ascii_of_string s.

Definition newline : ascii := ascii_of_nat 10.

Definition len (s : text) : Z := Z.of_nat (length s).

(** [str.isspace] on one character (code points below 256). *)
Definition isspace (c : ascii) : bool :=
  let n := nat_of_ascii c in
  ((9 <=? n) && (n <=? 13)) || ((28 <=? n) && (n <=? 32))
  || (n =? 133) || (n =? 160).

Fixpoint lstrip (s : text) : text :=
  match s with
  | [] => []
  | c :: r => if isspace c then lstrip r else s
  end.

Definition rstrip (s : text) : text := rev (lstrip (rev s)).

(** [s.strip()] *)
Definition strip (s : text) : text := rstrip (lstrip s).

(** [s.split(sep)] for a one-character separator: the pieces between
    occurrences of [sep], empty pieces included. *)
Fixpoint split (sep : ascii) (s : text) : list text :=
  match s with
  | [] => [[]]
  | c :: r =>
      if Ascii.eqb c sep then [] :: split sep r
      else match split sep r with
           | [] => [[c]]
           | w :: ws => (c :: w) :: ws
           end
  end.

(** [sep.join(docs)] *)
Fixpoint join (sep : text) (docs : list text) : text :=
  match docs with
  | [] => []
  | d :: rest =>
      match rest with
      | [] => d
      | _ :: _ => d ++ sep ++ join sep rest
      end
  end.

Definition nonempty (s : text) : bool :=
  match s with [] => false | _ :: _ => true end.

(** [s.lower()] on one character (code points below 256). *)
Definition lower_char (c : ascii) : ascii :=
  let n := nat_of_ascii c in
  if ((65 <=? n) && (n <=? 90))
     || ((192 <=? n) && (n <=? 222) && negb (n =? 215))
  then ascii_of_nat (n + 32) else c.

Fixpoint lower (s : string) : string :=
  match s with
  | EmptyString => EmptyString
  | String c r => String (lower_char c) (lower r)
  end.

(** [s.endswith(suffix)] *)
Definition endswith (s suffix : string) : bool :=
  let n := String.length s in
  let m := String.length suffix in
  (m <=? n) && String.eqb (substring (n - m) m s) suffix.

End Str.

Import Str.

(** ** The character text splitter

    [process_document] builds
    [CharacterTextSplitter(chunk_size=1000, chunk_overlap=200, separator="\n")]
    and calls [split_documents] on the loaded documents.  The class comes
    from the langchain package imported at the top of [main.py]; the
    definitions below follow its methods [split_text], [_join_docs] and
    [_merge_splits] with the remaining constructor arguments at their
    defaults ([keep_separator=False], [strip_whitespace=True],
    [length_function=len]). *)

Module TextSplitter.

Local Open Scope Z_scope.

Record t := {
    chunk_size : Z;
    chunk_overlap : Z;
    separator : ascii
  }.

Section Splitter.

Variable ts : t.

Definition sep : text := [separator ts].

(** [_join_docs]: join, strip, and report an empty result as [None]. *)
Definition join_docs (docs : list text) : option text :=
  let t := strip (join sep docs) in
  match t with
  | [] => None
  | _ :: _ => Some t
  end.

Definition sep_if (b : bool) : Z := if b then len sep else 0.

(** The test of the inner [while] loop of [_merge_splits]. *)
Definition keep_popping (_len : Z) (current_doc : list text) (total : Z)
  : bool :=
  (chunk_overlap ts <? total)
  || ((chunk_size ts <?
         total + _len + sep_if (0 <? length current_doc)%nat)
      && (0 <? total)).

(** The inner [while] loop: drop pieces from the front of
    [current_doc].  [None] is the [IndexError] that [current_doc[0]]
    raises on an empty list. *)
Fixpoint pop_front (_len : Z) (current_doc : list text) (total : Z)
  : option (list text * Z) :=
  if keep_popping _len current_doc total then
    match current_doc with
    | [] => None
    | x :: rest =>
        pop_front _len rest
          (total - (len x + sep_if (1 <? length current_doc)%nat))
    end
  else Some (current_doc, total).

(** Loop state of [_merge_splits]: [docs], [current_doc], [total]. *)
Definition merge_state : Type := list text * list text * Z.

Definition push (docs : list text) (current_doc : list text) (total : Z)
           (d : text) : merge_state :=
  let current_doc' := current_doc ++ [d] in
  (docs, current_doc',
   total + len d + sep_if (1 <? length current_doc')%nat).

(** One iteration of the [for d in splits] loop. *)
Definition merge_step (st : merge_state) (d : text) : option merge_state :=
  let '(docs, current_doc, total) := st in
  let _len := len d in
  if chunk_size ts <? total + _len + sep_if (0 <? length current_doc)%nat
  then
    if (0 <? length current_doc)%nat then
      let docs' :=
        match join_docs current_doc with
        | Some doc => docs ++ [doc]
        | None => docs
        end in
      match pop_front _len current_doc total with
      | None => None
      | Some (current_doc', total') =>
          Some (push docs' current_doc' total' d)
      end
    else Some (push docs current_doc total d)
  else Some (push docs current_doc total d).

Fixpoint merge_loop (st : merge_state) (splits : list text)
  : option merge_state :=
  match splits with
  | [] => Some st
  | d :: rest =>
      match merge_step st d with
      | None => None
      | Some st' => merge_loop st' rest
      end
  end.

(** [_merge_splits] *)
Definition merge_splits (splits : list text) : option (list text) :=
  match merge_loop ([], [], 0%Z) splits with
  | None => None
  | Some (docs, current_doc, _) =>
      match join_docs current_doc with
      | Some doc => Some (docs ++ [doc])
      | None => Some docs
      end
  end.

(** The pieces [split_text] hands to [_merge_splits]: the text cut at
    the separator, empty pieces removed. *)
Definition pieces (s : text) : list text :=
  filter nonempty (split (separator ts) s).

(** [split_text] *)
Definition split_text (s : text) : option (list text) :=
  merge_splits (pieces s).

End Splitter.

End TextSplitter.

(** The splitter that [process_document] configures. *)
Definition text_splitter : TextSplitter.t :=
  {| TextSplitter.chunk_size := 1000;
     TextSplitter.chunk_overlap := 200;
     TextSplitter.separator := newline |}.

(** ** Documents, the vector store and the question-answering chain *)

(** A call into an external service either returns or raises; [Raise]
    carries [str(e)]. *)
Inductive result (A : Type) : Type :=
  | Ok (a : A)
  | Raise (msg : string).
Arguments Ok {A} a.
Arguments Raise {A} msg.

Record Document := {
    page_content : text;
    metadata : list (string * string)
  }.

(** [split_documents]: every document is split on its own and each chunk
    inherits the metadata of the document it was cut from. *)
Fixpoint split_documents (ts : TextSplitter.t) (documents : list Document)
  : option (list Document) :=
  match documents with
  | [] => Some []
  | doc :: rest =>
      match TextSplitter.split_text ts (page_content doc) with
      | None => None
      | Some cs =>
          match split_documents ts rest with
          | None => None
          | Some more =>
              Some (map (fun c => {| page_content := c;
                                     metadata := metadata doc |}) cs ++ more)
          end
      end
  end.

Inductive Format := PDF | DOCX | TXT.

Definition Vector : Type := list Z.

(** The collaborators of one script run: the Drive folder, the local file
    system, the embedding service and the chat model. *)
Record Services := {
    (** [os.path.exists(SERVICE_ACCOUNT_FILE)] *)
    service_account_file : bool;
    (** reading the credentials and building the Drive client *)
    drive_build : result unit;
    (** [OPENAI_API_KEY] is set to something else than ["default_key"] *)
    api_key_set : bool;
    (** [files().create] for a file name: the new file id *)
    drive_create : string -> result string;
    (** [files().list]: name and id of every file of the folder *)
    drive_list : result (list (string * string));
    (** [get_media] of a file id into a local path *)
    drive_get_media : string -> string -> result unit;
    (** [os.path.join(tempfile.mkdtemp(), name)] *)
    local_path : string -> string;
    (** the loader of a format, run on a local path *)
    load : Format -> string -> result (list Document);
    (** the embedding service, on a chunk and on a question *)
    embed : text -> result Vector;
    embed_query : string -> result Vector;
    (** the similarity the index ranks by *)
    similarity : Vector -> Vector -> Z;
    (** the chat model, on a question with its retrieved chunks *)
    generate : string -> list Document -> result string
  }.

Module VectorStore.

Definition index : Type := list (Vector * Document).

(** Modelled from the spec: [FAISS.from_documents] is library code that
    the repository only calls.  Per section 4.3, [build] embeds every
    chunk, fails as soon as the embedding call fails for one of them, and
    otherwise returns one pair per chunk. *)
Fixpoint build (embed : text -> result Vector) (chunks : list Document)
  : result index :=
  match chunks with
  | [] => Ok []
  | c :: rest =>
      match embed (page_content c) with
      | Raise e => Raise e
      | Ok v =>
          match build embed rest with
          | Raise e => Raise e
          | Ok ix => Ok ((v, c) :: ix)
          end
      end
  end.

(** Position, score and chunk of one stored pair. *)
Definition entry : Type := (nat * Z * Document)%type.

Definition pos (e : entry) : nat := fst (fst e).
Definition score (e : entry) : Z := snd (fst e).
Definition chunk (e : entry) : Document := snd e.

Fixpoint scored (sim : Vector -> Vector -> Z) (q : Vector) (n : nat)
         (ix : index) : list entry :=
  match ix with
  | [] => []
  | (v, c) :: rest => (n, sim q v, c) :: scored sim q (S n) rest
  end.

(** Insert an entry that precedes, in the index, every entry of
    [sorted]: it goes in front of the first entry it ties with or
    beats. *)
Fixpoint insert (e : entry) (sorted : list entry) : list entry :=
  match sorted with
  | [] => [e]
  | e' :: rest =>
      if (score e' <=? score e)%Z then e :: sorted
      else e' :: insert e rest
  end.

Fixpoint rank (es : list entry) : list entry :=
  match es with
  | [] => []
  | e :: rest => insert e (rank rest)
  end.

(** Modelled from the spec: the similarity search behind
    [vectorstore.as_retriever] is library code that the repository only
    calls.  Per section 4.3, [query] returns the [k] pairs with the
    highest similarity to the query vector, an earlier chunk winning a
    tie, and all of them when the index holds fewer than [k]. *)
Definition top (sim : Vector -> Vector -> Z) (ix : index) (q : Vector)
           (k : nat) : list entry :=
  firstn k (rank (scored sim q 0 ix)).

Definition query (sim : Vector -> Vector -> Z) (ix : index) (q : Vector)
           (k : nat) : list Document :=
  map chunk (top sim ix q k).

End VectorStore.

(** The chain that [process_document] returns: the retriever over the
    vector store with its [search_kwargs], and the chat model settings. *)
Record QAChain := {
    vectorstore : VectorStore.index;
    search_k : nat;
    model_name : string;
    temperature : Z
  }.

(** Modelled from the spec: calling the [RetrievalQA] chain is library
    code.  Per section 4.4, [answer] embeds the question, retrieves the
    [k] nearest chunks, issues one generation request over the question
    and those chunks, and returns the text with the chunks used. *)
Definition answer (sv : Services) (chain : QAChain) (question : string)
  : result (string * list Document) :=
  match embed_query sv question with
  | Raise e => Raise e
  | Ok q =>
      let docs :=
        VectorStore.query (similarity sv) (vectorstore chain) q
                          (search_k chain) in
      match generate sv question docs with
      | Raise e => Raise e
      | Ok txt => Ok (txt, docs)
      end
  end.

(** ** What a run shows and calls *)

Inductive Role := user | assistant.

(** The text shown for one source document:
    [page_content[:500] + "..."] when longer than 500 characters. *)
Definition preview (d : Document) : text :=
  if (500 <? length (page_content d))%nat
  then firstn 500 (page_content d) ++ lit "..."
  else page_content d.

(** Static page elements (titles, captions, spinners) are left out. *)
Inductive Effect :=
  | st_error (msg : string)
  | st_success (msg : string)
  | st_info (msg : string)
  | st_warning (msg : string)
  | st_chat_message (r : Role) (content : string)
                    (shown_sources : option (list text))
  | call_qa_chain (prompt : string).

Open Scope string_scope.
Open Scope list_scope.

(** [init_drive_service]: whether a service came back, with the error
    shown when none did.  The function is decorated with
    [st.cache_resource], which replays the message of a cached call, so
    every run sees the call as written here. *)
Definition init_drive_service (sv : Services) : bool * list Effect :=
  if negb (service_account_file sv) then
    (false,
     [st_error
        "Service account file not found: credentials/service_account.json"])
  else
    match drive_build sv with
    | Ok _ => (true, [])
    | Raise e =>
        (false,
         [st_error ("Failed to initialize Google Drive service: " ++ e)%string])
    end.

(** [drive_service = init_drive_service()], as [main] tests it. *)
Definition drive_service (sv : Services) : bool :=
  fst (init_drive_service sv).

Definition format_of (file_name : string) : option Format :=
  let name := lower file_name in
  if endswith name ".pdf" then Some PDF
  else if endswith name ".docx" then Some DOCX
  else if endswith name ".txt" then Some TXT
  else None.

(** [process_document]: the chain for the file, or [None] with the error
    shown.  Every exception raised on the way is caught and reported. *)
Definition process_document (sv : Services) (file_path file_name : string)
  : option QAChain * list Effect :=
  match format_of file_name with
  | None => (None, [st_error "Unsupported file format"])
  | Some fmt =>
      match load sv fmt file_path with
      | Raise e =>
          (None, [st_error ("Error processing document: " ++ e)%string])
      | Ok documents =>
          match split_documents text_splitter documents with
          | None =>
              (None, [st_error
                        "Error processing document: list index out of range"])
          | Some [] =>
              (None, [st_error "No text content found in the document"])
          | Some ((_ :: _) as chunks) =>
              match VectorStore.build (embed sv) chunks with
              | Raise e =>
                  (None, [st_error ("Error processing document: " ++ e)%string])
              | Ok vs =>
                  (Some {| vectorstore := vs;
                           search_k := 4;
                           model_name := "gpt-4o";
                           temperature := 0 |}, [])
              end
          end
      end
  end.

(** ** Session state and one run of [main] *)

Record Message := {
    role : Role;
    content : string;
    sources : option (list Document)
  }.

(** [st.session_state]: each key is present or not. *)
Record SessionState := {
    qa_chain : option QAChain;
    current_document : option string;
    messages : option (list Message)
  }.

Definition history (s : SessionState) : list Message :=
  match messages s with
  | Some ms => ms
  | None => []
  end.

(** Widget values of one run. *)
Record Widgets := {
    uploaded_file : option string;
    upload_button : bool;
    file_selector : nat;
    process_button : bool;
    chat_input : option string;
    clear_button : bool
  }.

(** The widget values of the run that [st.rerun()] starts: the selection
    stays, no button is pressed and nothing is typed. *)
Definition rerun_widgets (w : Widgets) : Widgets :=
  {| uploaded_file := uploaded_file w;
     upload_button := false;
     file_selector := file_selector w;
     process_button := false;
     chat_input := None;
     clear_button := false |}.

Definition truthy (s : string) : bool :=
  match s with EmptyString => false | String _ _ => true end.

Definition supported (name : string) : bool :=
  let n := lower name in
  endswith n ".pdf" || endswith n ".docx" || endswith n ".txt".

(** Keys of [{f['name']: f['id'] for f in supported_files}], in insertion
    order. *)
Fixpoint dict_keys (seen : list string) (files : list (string * string))
  : list string :=
  match files with
  | [] => []
  | (name, _) :: rest =>
      if existsb (String.eqb name) seen then dict_keys seen rest
      else name :: dict_keys (name :: seen) rest
  end.

(** Value stored under a key: the last one written. *)
Fixpoint dict_get (files : list (string * string)) (key : string)
  : option string :=
  match files with
  | [] => None
  | (name, id) :: rest =>
      match dict_get rest key with
      | Some v => Some v
      | None => if String.eqb name key then Some id else None
      end
  end.

(** [list_drive_files]: the folder listing as (name, id) pairs, empty
    when the listing fails. *)
Definition list_drive_files (sv : Services)
  : list (string * string) * list Effect :=
  match drive_list sv with
  | Ok files => (files, [])
  | Raise e => ([], [st_error ("Error listing Drive files: " ++ e)%string])
  end.

(** [download_file] *)
Definition download_file (sv : Services) (file_id dest_path : string)
  : bool * list Effect :=
  match drive_get_media sv file_id dest_path with
  | Ok _ => (true, [])
  | Raise e => (false, [st_error ("Error downloading file: " ++ e)%string])
  end.

(** [upload_to_drive] *)
Definition upload_to_drive (sv : Services) (filename : string)
  : option string * list Effect :=
  match drive_create sv filename with
  | Ok file_id => (Some file_id, [])
  | Raise e => (None, [st_error ("Error uploading file: " ++ e)%string])
  end.

Definition supported_files (sv : Services) : list (string * string) :=
  filter (fun f => supported (fst f)) (fst (list_drive_files sv)).

(** The selected document with its Drive id, when the "Process Document"
    button is pressed. *)
Definition selected_file (sv : Services) (w : Widgets)
  : option (string * string) :=
  match nth_error (dict_keys [] (supported_files sv)) (file_selector w) with
  | None => None
  | Some name =>
      if truthy name && process_button w then
        match dict_get (supported_files sv) name with
        | Some id => Some (name, id)
        | None => None
        end
      else None
  end.

(** The left column: the document list and the "Process Document"
    button. *)
Definition document_column (sv : Services) (w : Widgets) (s : SessionState)
  : SessionState * list Effect :=
  let listing := snd (list_drive_files sv) in
  match supported_files sv with
  | [] =>
      (s, listing ++
          [st_info "No documents found. Upload a document to get started."])
  | _ :: _ =>
      match selected_file sv w with
      | None => (s, listing)
      | Some (name, id) =>
          match download_file sv id (local_path sv name) with
          | (true, out) =>
              match process_document sv (local_path sv name) name with
              | (Some chain, out') =>
                  ({| qa_chain := Some chain;
                      current_document := Some name;
                      messages := messages s |},
                   listing ++ out ++ out' ++
                   [st_success
                      ("✅ Document '" ++ name ++ "' processed successfully!")
                      %string])
              | (None, out') =>
                  (s, listing ++ out ++ out' ++
                      [st_error "❌ Failed to process document"])
              end
          | (false, out) => (s, listing ++ out)
          end
      end
  end.

Definition document_banner (s : SessionState) : Effect :=
  match current_document s with
  | Some name => st_info ("📄 Currently analyzing: **" ++ name ++ "**")%string
  | None =>
      st_info
        "📄 No document selected. Please select and process a document first."
  end.

Definition init_messages (s : SessionState) : SessionState :=
  match messages s with
  | Some _ => s
  | None =>
      {| qa_chain := qa_chain s;
         current_document := current_document s;
         messages := Some [] |}
  end.

Definition show_message (m : Message) : Effect :=
  st_chat_message (role m) (content m) (option_map (map preview) (sources m)).

Definition append_message (s : SessionState) (m : Message) : SessionState :=
  {| qa_chain := qa_chain s;
     current_document := current_document s;
     messages := Some (history s ++ [m]) |}.

(** The chat input: one question, one answer. *)
Definition chat (sv : Services) (w : Widgets) (s : SessionState)
  : SessionState * list Effect :=
  match chat_input w with
  | None => (s, [])
  | Some prompt =>
      if truthy prompt then
        match qa_chain s with
        | None =>
            (s, [st_error "Please select and process a document first!"])
        | Some chain =>
            let s1 :=
              append_message s
                {| role := user; content := prompt; sources := None |} in
            let shown := [st_chat_message user prompt None;
                          call_qa_chain prompt] in
            match answer sv chain prompt with
            | Ok (response, srcs) =>
                (append_message s1
                   {| role := assistant; content := response;
                      sources := Some srcs |},
                 shown ++ [st_chat_message assistant response
                             (match srcs with
                              | [] => None
                              | _ :: _ => Some (map preview srcs)
                              end)])
            | Raise e =>
                let error_msg :=
                  ("Sorry, I encountered an error: " ++ e)%string in
                (append_message s1
                   {| role := assistant; content := error_msg;
                      sources := None |},
                 shown ++ [st_error error_msg])
            end
        end
      else (s, [])
  end.

(** The "Clear Chat History" button, offered when the history is not
    empty; the flag asks for [st.rerun()]. *)
Definition clear_chat (w : Widgets) (s : SessionState)
  : SessionState * bool :=
  match history s with
  | [] => (s, false)
  | _ :: _ =>
      if clear_button w then
        ({| qa_chain := qa_chain s;
            current_document := current_document s;
            messages := Some [] |}, true)
      else (s, false)
  end.

(** The sidebar: a successful upload restarts the script at once. *)
Definition sidebar (sv : Services) (w : Widgets) : list Effect * bool :=
  match uploaded_file w with
  | None => ([], false)
  | Some name =>
      if upload_button w then
        match upload_to_drive sv name with
        | (Some file_id, out) =>
            if truthy file_id then
              (out ++
               [st_success
                  ("✅ File uploaded successfully! ID: " ++ file_id)%string],
               true)
            else (out ++ [st_error "❌ Failed to upload file"], false)
        | (None, out) => (out ++ [st_error "❌ Failed to upload file"], false)
        end
      else ([], false)
  end.

(** One pass over the script; the flag tells whether it ended in
    [st.rerun()]. *)
Definition script (sv : Services) (w : Widgets) (s : SessionState)
  : SessionState * list Effect * bool :=
  let '(service, init) := init_drive_service sv in
  if negb service then (s, init, false)
  else if negb (api_key_set sv) then
    (s, init ++
        [st_warning
           ("⚠️ OpenAI API key not found. " ++
            "Please set the OPENAI_API_KEY environment variable.")%string],
     false)
  else
    let '(out0, rerun0) := sidebar sv w in
    if rerun0 then (s, init ++ out0, true)
    else
      let '(s1, out1) := document_column sv w s in
      let s2 := init_messages s1 in
      let shown := document_banner s2 :: map show_message (history s2) in
      let '(s3, out3) := chat sv w s2 in
      let '(s4, rerun4) := clear_chat w s3 in
      (s4, init ++ out0 ++ out1 ++ shown ++ out3, rerun4).

(** [main], followed by the run that [st.rerun()] triggers. *)
Definition main (sv : Services) (w : Widgets) (s : SessionState)
  : SessionState * list Effect :=
  let '(s1, out1, rerun) := script sv w s in
  if rerun then
    let '(s2, out2, _) := script sv (rerun_widgets w) s1 in
    (s2, out1 ++ out2)
  else (s1, out1).


(** ** Vocabulary of the statements *)

(** The runs of pieces behind the chunks of [_merge_splits]: a window is
    the content of [current_doc] when it is joined into a chunk, together
    with the number of leading pieces it repeats from the window before. *)
Module Windows.

Import TextSplitter.
Local Open Scope Z_scope.

Definition window : Type := (nat * list text)%type.

Section Defs.

Variable ts : TextSplitter.t.

(** Length of the window once joined, as [total] tracks it. *)
Definition measure (w : list text) : Z := len (join (sep ts) w).

Definition chunk_of (kw : window) : list text :=
  match join_docs ts (snd kw) with
  | Some d => [d]
  | None => []
  end.

Definition chunks_of (ws : list window) : list text :=
  flat_map chunk_of ws.

Definition sized (kw : window) : Prop :=
  (measure (snd kw) <= chunk_size ts \/ (length (snd kw) <= 1)%nat) /\
  measure (firstn (fst kw) (snd kw)) <= chunk_overlap ts.

End Defs.

(** The pieces a window adds to the ones before it. *)
Definition fresh (kw : window) : list text := skipn (fst kw) (snd kw).

Definition dedup (ws : list window) : list text := flat_map fresh ws.

(** The repeated pieces of a window are the last pieces of [prev]. *)
Definition joins (prev : list text) (kw : window) : Prop :=
  (fst kw <= length (snd kw))%nat /\ (fst kw <= length prev)%nat /\
  firstn (fst kw) (snd kw) = skipn (length prev - fst kw) prev.

Fixpoint overlaps_ok (prev : list text) (ws : list window) : Prop :=
  match ws with
  | [] => True
  | kw :: rest => joins prev kw /\ overlaps_ok (snd kw) rest
  end.

(** The window has a piece of its own behind the ones it repeats. *)
Definition adds (kw : window) : Prop := (fst kw < length (snd kw))%nat.

(** The window [kw] was opened behind [prev] for its first own piece [d]:
    [d] did not fit behind [prev], and [kw] repeats as many trailing
    pieces of [prev] as the loop keeps, since with one more of them the
    repeated pieces are over the overlap or, with [d], over the chunk
    size. *)
Definition tight (ts : TextSplitter.t) (prev : list text) (kw : window)
  : Prop :=
  exists d : text,
    nth_error (snd kw) (fst kw) = Some d /\
    chunk_size ts < measure ts (prev ++ [d]) /\
    (fst kw < length prev)%nat /\
    let u := skipn (length prev - S (fst kw)) prev in
    chunk_overlap ts < measure ts u \/ chunk_size ts < measure ts (u ++ [d]).

Fixpoint tight_chain (ts : TextSplitter.t) (prev : list text)
         (ws : list window) : Prop :=
  match ws with
  | [] => True
  | kw :: rest => tight ts prev kw /\ tight_chain ts (snd kw) rest
  end.

(** Every window but the first is tight behind the one before it. *)
Definition greedy (ts : TextSplitter.t) (ws : list window) : Prop :=
  match ws with
  | [] => True
  | kw :: rest => tight_chain ts (snd kw) rest
  end.

(** The loop invariant of [_merge_splits] after the pieces [P]: the
    chunks emitted so far and [current_doc] are a chain of windows over
    [P], and [total] is the joined length of [current_doc]. *)
Definition InvAt (ts : TextSplitter.t) (P : list text) (st : merge_state)
           (ws : list window) (k : nat) : Prop :=
  let '(docs, cd, total) := st in
  docs = chunks_of ts ws /\
  total = measure ts cd /\
  dedup (ws ++ [(k, cd)]) = P /\
  overlaps_ok [] (ws ++ [(k, cd)]) /\
  Forall (sized ts) (ws ++ [(k, cd)]) /\
  Forall (fun kw : window => incl (snd kw) P) (ws ++ [(k, cd)]) /\
  Forall (fun l : text => l <> []) cd.

Definition Inv (ts : TextSplitter.t) (P : list text) (st : merge_state)
  : Prop :=
  exists ws k, InvAt ts P st ws k.


End Windows.


(** Ranking order of the retrieval: higher similarity first, the earlier
    chunk first on a tie. *)
Definition before (e e' : VectorStore.entry) : Prop :=
  (VectorStore.score e' < VectorStore.score e)%Z \/
  (VectorStore.score e = VectorStore.score e' /\
   VectorStore.pos e < VectorStore.pos e').

(** What the rest of the program can observe of a session. *)
Definition view (s : SessionState)
  : option QAChain * option string * list Message :=
  (qa_chain s, current_document s, history s).

(** The run gets past the start-up checks and the sidebar. *)
Definition reaches_columns (sv : Services) (w : Widgets) : bool :=
  drive_service sv && api_key_set sv && negb (snd (sidebar sv w)).

(** Outcome of the "Process Document" button in this run: the selected
    name with the chain built for it, if any. *)
Definition build_result (sv : Services) (w : Widgets)
  : option (string * option QAChain) :=
  match selected_file sv w with
  | None => None
  | Some (name, id) =>
      if fst (download_file sv id (local_path sv name))
      then Some (name, fst (process_document sv (local_path sv name) name))
      else Some (name, None)
  end.

(** The run was started by submitting [prompt] in the chat input. *)
Definition asks (w : Widgets) (prompt : string) : Prop :=
  chat_input w = Some prompt /\ truthy prompt = true /\
  process_button w = false /\ clear_button w = false.

(** A sequence of runs, each with the collaborators and widget values it
    meets. *)
Fixpoint runs (rs : list (Services * Widgets)) (s : SessionState)
  : SessionState :=
  match rs with
  | [] => s
  | r :: rest => runs rest (fst (main (fst r) (snd r) s))
  end.

(** No run of the sequence processes a document successfully. *)
Definition no_build (r : Services * Widgets) : Prop :=
  forall name chain, build_result (fst r) (snd r) <> Some (name, Some chain).

Definition user_turn (prompt : string) : Message :=
  {| role := user; content := prompt; sources := None |}.

Definition assistant_turn (response : string) (srcs : list Document)
  : Message :=
  {| role := assistant; content := response; sources := Some srcs |}.

Definition error_turn (e : string) : Message :=
  {| role := assistant;
     content := ("Sorry, I encountered an error: " ++ e)%string;
     sources := None |}.

(** ** Further vocabulary *)

(** The prompts the chain is called with, among the effects of a run. *)
Fixpoint chain_calls (out : list Effect) : list string :=
  match out with
  | [] => []
  | call_qa_chain prompt :: rest => prompt :: chain_calls rest
  | _ :: rest => chain_calls rest
  end.

(** A conversation of questions, each followed by its reply. *)
Fixpoint paired (ms : list Message) : Prop :=
  match ms with
  | [] => True
  | q :: rest =>
      match rest with
      | [] => False
      | a :: more =>
          role q = user /\ sources q = None /\ role a = assistant /\
          paired more
      end
  end.

(** The chain and the document name are in the session together, and the
    chain has the settings [process_document] gives it. *)
Definition bound (s : SessionState) : Prop :=
  (qa_chain s = None <-> current_document s = None) /\
  forall chain, qa_chain s = Some chain ->
    search_k chain = 4 /\ temperature chain = 0%Z /\
    model_name chain = "gpt-4o".

(** Every character of the text is white space. *)
Definition blank (s : text) : Prop := Forall (fun c => isspace c = true) s.

(** ** A small world to run the program in

    One text file in the Drive folder; the flags choose whether the
    embedding service and the chat model answer or raise. *)

Definition sample_document : Document :=
  {| page_content := lit "alpha" ++ [newline] ++ lit "beta";
     metadata := [("source", "/tmp/notes.txt")] |}.

Definition sample_services (embedding_up model_up : bool) : Services :=
  {| service_account_file := true;
     drive_build := Ok tt;
     api_key_set := true;
     drive_create := fun _ => Raise "offline";
     drive_list := Ok [("notes.txt", "file-1")];
     drive_get_media := fun _ _ => Ok tt;
     local_path := fun name => ("/tmp/" ++ name)%string;
     load := fun _ _ => Ok [sample_document];
     embed := fun _ => if embedding_up then Ok [1%Z] else Raise "quota";
     embed_query := fun _ => Ok [1%Z];
     similarity := fun _ _ => 0%Z;
     generate := fun _ _ => if model_up then Ok "42" else Raise "timeout" |}.

Definition idle_widgets : Widgets :=
  {| uploaded_file := None;
     upload_button := false;
     file_selector := 0;
     process_button := false;
     chat_input := None;
     clear_button := false |}.

Definition press_process : Widgets :=
  {| uploaded_file := None;
     upload_button := false;
     file_selector := 0;
     process_button := true;
     chat_input := None;
     clear_button := false |}.

Definition press_clear : Widgets :=
  {| uploaded_file := None;
     upload_button := false;
     file_selector := 0;
     process_button := false;
     chat_input := None;
     clear_button := true |}.

Definition type_question (prompt : string) : Widgets :=
  {| uploaded_file := None;
     upload_button := false;
     file_selector := 0;
     process_button := false;
     chat_input := Some prompt;
     clear_button := false |}.

Definition fresh_session : SessionState :=
  {| qa_chain := None; current_document := None; messages := None |}.

Definition sample_chain : QAChain :=
  {| vectorstore :=
       [([1%Z], {| page_content := lit "alpha" ++ [newline] ++ lit "beta";
                   metadata := [("source", "/tmp/notes.txt")] |})];
     search_k := 4;
     model_name := "gpt-4o";
     temperature := 0 |}.

(** Three stored chunks whose first vector component is their score. *)
Definition first_component (q v : Vector) : Z := hd 0%Z v.

Definition sample_index : VectorStore.index :=
  [([1%Z], {| page_content := lit "one"; metadata := [] |});
   ([3%Z], {| page_content := lit "two"; metadata := [] |});
   ([1%Z], {| page_content := lit "three"; metadata := [] |})].

Definition indexed_session : SessionState :=
  {| qa_chain := Some sample_chain;
     current_document := Some "notes.txt";
     messages := Some [user_turn "hi"; assistant_turn "42" []] |}.

(** A session on an earlier document: its one chunk is longer than what
    is shown of a source, and the recorded answer cites it. *)
Definition old_chunk : Document :=
  {| page_content := repeat "g"%char 600;
     metadata := [("source", "/tmp/old.txt")] |}.

Definition old_chain : QAChain :=
  {| vectorstore := [([2%Z], old_chunk)];
     search_k := 4;
     model_name := "gpt-4o";
     temperature := 0 |}.

Definition answered_session : SessionState :=
  {| qa_chain := Some old_chain;
     current_document := Some "old.txt";
     messages := Some [user_turn "hi"; assistant_turn "42" [old_chunk]] |}.

(** The same collaborators with the Drive service missing, with the
    folder listing failing, and with uploads accepted. *)
Definition without_drive (sv : Services) : Services :=
  {| service_account_file := false;
     drive_build := drive_build sv;
     api_key_set := api_key_set sv;
     drive_create := drive_create sv;
     drive_list := drive_list sv;
     drive_get_media := drive_get_media sv;
     local_path := local_path sv;
     load := load sv;
     embed := embed sv;
     embed_query := embed_query sv;
     similarity := similarity sv;
     generate := generate sv |}.

Definition with_listing (listing : result (list (string * string)))
           (sv : Services) : Services :=
  {| service_account_file := service_account_file sv;
     drive_build := drive_build sv;
     api_key_set := api_key_set sv;
     drive_create := drive_create sv;
     drive_list := listing;
     drive_get_media := drive_get_media sv;
     local_path := local_path sv;
     load := load sv;
     embed := embed sv;
     embed_query := embed_query sv;
     similarity := similarity sv;
     generate := generate sv |}.

Definition with_upload (file_id : string) (sv : Services) : Services :=
  {| service_account_file := service_account_file sv;
     drive_build := drive_build sv;
     api_key_set := api_key_set sv;
     drive_create := fun _ => Ok file_id;
     drive_list := drive_list sv;
     drive_get_media := drive_get_media sv;
     local_path := local_path sv;
     load := load sv;
     embed := embed sv;
     embed_query := embed_query sv;
     similarity := similarity sv;
     generate := generate sv |}.

Definition with_documents (docs : result (list Document)) (sv : Services)
  : Services :=
  {| service_account_file := service_account_file sv;
     drive_build := drive_build sv;
     api_key_set := api_key_set sv;
     drive_create := drive_create sv;
     drive_list := drive_list sv;
     drive_get_media := drive_get_media sv;
     local_path := local_path sv;
     load := fun _ _ => docs;
     embed := embed sv;
     embed_query := embed_query sv;
     similarity := similarity sv;
     generate := generate sv |}.

Close Scope string_scope.

(** * Facts about the chunker *)

Module SplitterFacts.

Import TextSplitter Windows.
Local Open Scope Z_scope.



Lemma join_snoc (sp : text) (cd : list text) (d : text) :
  join sp (cd ++ [d]) =
  match cd with [] => d | _ :: _ => join sp cd ++ sp ++ d end.
Proof.
  induction cd as [|x r IH]; [reflexivity|].
  destruct r as [|y r'].
  - reflexivity.
  - change (join sp ((x :: y :: r') ++ [d]))
      with (x ++ sp ++ join sp ((y :: r') ++ [d])).
    rewrite IH.
    change (join sp (x :: y :: r')) with (x ++ sp ++ join sp (y :: r')).
    now rewrite <- !app_assoc.
Qed.

Section MergeFacts.

Variable ts : TextSplitter.t.
Hypothesis overlap_nonneg : 0 <= chunk_overlap ts.

Lemma measure_nil : measure ts [] = 0.
Proof. reflexivity. Qed.

Lemma measure_cons (x : text) (r : list text) :
  measure ts (x :: r) =
  len x + sep_if ts (1 <? length (x :: r))%nat + measure ts r.
Proof.
  unfold measure, len. destruct r as [|y r'].
  - simpl. lia.
  - change (join (sep ts) (x :: y :: r'))
      with (x ++ sep ts ++ join (sep ts) (y :: r')).
    rewrite !length_app. cbn [length Nat.ltb Nat.leb sep_if]. unfold len. lia.
Qed.

Lemma measure_snoc (cd : list text) (d : text) :
  measure ts (cd ++ [d]) =
  measure ts cd + len d + sep_if ts (1 <? length (cd ++ [d]))%nat.
Proof.
  unfold measure, len. rewrite join_snoc. destruct cd as [|x r].
  - simpl. lia.
  - rewrite !length_app.
    replace (1 <? length (x :: r) + length [d])%nat with true
      by (symmetry; apply Nat.ltb_lt; simpl; lia).
    unfold sep_if, len. lia.
Qed.

Lemma measure_nonneg (w : list text) : 0 <= measure ts w.
Proof. unfold measure, len. lia. Qed.

Lemma measure_pos (w : list text) :
  Forall (fun l => l <> []) w -> w <> [] -> 0 < measure ts w.
Proof.
  intros Hw Hne. destruct w as [|x r]; [congruence|].
  rewrite measure_cons. inversion Hw; subst.
  pose proof (measure_nonneg r).
  assert (0 < len x) by (unfold len; destruct x; [congruence|simpl; lia]).
  assert (0 <= sep_if ts (1 <? length (x :: r))%nat)
    by (unfold sep_if, len; destruct (_ <? _)%nat; lia).
  lia.
Qed.

Lemma pop_front_spec (_len : Z) (cd : list text) :
  exists pre cd',
    cd = pre ++ cd' /\
    pop_front ts _len cd (measure ts cd) = Some (cd', measure ts cd') /\
    keep_popping ts _len cd' (measure ts cd') = false /\
    forall pre' x, pre = pre' ++ [x] ->
      keep_popping ts _len (x :: cd') (measure ts (x :: cd')) = true.
Proof.
  induction cd as [|x r IH].
  - exists [], []. split; [reflexivity|].
    assert (H : keep_popping ts _len [] (measure ts []) = false).
    { unfold keep_popping. rewrite measure_nil.
      apply orb_false_iff; split; [apply Z.ltb_ge; assumption|].
      apply andb_false_iff; right; reflexivity. }
    split; [|split; [exact H|]].
    + cbn [pop_front]. now rewrite H.
    + intros pre' y E. now destruct pre'.
  - destruct (keep_popping ts _len (x :: r) (measure ts (x :: r))) eqn:K.
    + destruct IH as (pre & cd' & E & P & Q & L).
      exists (x :: pre), cd'. split; [simpl; congruence|].
      split; [|split; [exact Q|]].
      * cbn [pop_front]. rewrite K.
        replace (measure ts (x :: r)
                 - (len x + sep_if ts (1 <? length (x :: r))%nat))
          with (measure ts r) by (rewrite measure_cons; lia).
        exact P.
      * intros pre' y Ey. destruct pre' as [|z pre''].
        -- cbn [app] in Ey. injection Ey as <- Ep. subst pre.
           cbn [app] in E. subst r. exact K.
        -- cbn [app] in Ey. injection Ey as _ Ep. now apply (L pre'').
    + exists [], (x :: r). split; [reflexivity|].
      split; [|split; [exact K|]].
      * cbn [pop_front]. now rewrite K.
      * intros pre' y E. now destruct pre'.
Qed.

Lemma measure_suffix (pre w : list text) :
  measure ts w <= measure ts (pre ++ w).
Proof.
  induction pre as [|x r IH]; [simpl; lia|].
  rewrite <- app_comm_cons, measure_cons.
  assert (0 <= len x) by (unfold len; lia).
  assert (0 <= sep_if ts (1 <? length (x :: r ++ w))%nat)
    by (unfold sep_if, len; destruct (_ <? _)%nat; lia).
  lia.
Qed.

Lemma last_cons (A : Type) (x d : A) (l : list A) : last (x :: l) d = last l x.
Proof.
  revert x d. induction l as [|y l IH]; intros x d; [reflexivity|].
  change (last (x :: y :: l) d) with (last (y :: l) d).
  now rewrite !IH.
Qed.

Lemma overlaps_ok_snoc (prev : list text) (ws : list window) (kw : window) :
  overlaps_ok prev (ws ++ [kw]) <->
  overlaps_ok prev ws /\ joins (last (map snd ws) prev) kw.
Proof.
  revert prev. induction ws as [|a ws IH]; intro prev.
  - simpl. tauto.
  - cbn [app overlaps_ok map]. rewrite IH, last_cons. tauto.
Qed.





Lemma InvAt_init : InvAt ts [] ([], [], 0) [] 0%nat.
Proof.
  repeat split; try reflexivity.
  - constructor; [|constructor]. split; cbn; [right; lia|assumption].
  - constructor; [|constructor]. intros x [].
  - constructor.
Qed.

Lemma Inv_init : Inv ts [] ([], [], 0).
Proof. exists [], 0%nat. exact InvAt_init. Qed.

Lemma InvAt_push (P : list text) docs cd total (d : text) ws k :
  InvAt ts P (docs, cd, total) ws k -> d <> [] ->
  (measure ts (cd ++ [d]) <= chunk_size ts \/ (length (cd ++ [d]) <= 1)%nat) ->
  InvAt ts (P ++ [d]) (push ts docs cd total d) ws k.
Proof.
  intros (Hd & Ht & Hp & Ho & Hs & Hi & Hn) Hne Hsz.
  apply overlaps_ok_snoc in Ho. destruct Ho as (Ho & Hk & Hk' & Hf).
  cbn [fst snd] in Hk, Hk', Hf.
  apply Forall_app in Hs. destruct Hs as (Hs & Hs1).
  apply Forall_app in Hi. destruct Hi as (Hi & Hi1).
  apply Forall_inv in Hs1. destruct Hs1 as (_ & Hov). cbn [fst snd] in Hov.
  apply Forall_inv in Hi1. rename Hi1 into Hic. cbn [snd] in Hic.
  unfold dedup in Hp. rewrite flat_map_app in Hp. cbn in Hp.
  rewrite app_nil_r in Hp. unfold fresh in Hp. cbn [fst snd] in Hp.
  unfold push. repeat split.
  - exact Hd.
  - rewrite measure_snoc. now subst total.
  - unfold dedup. rewrite flat_map_app. cbn. rewrite app_nil_r.
    unfold fresh; cbn [fst snd]. rewrite skipn_app.
    replace (k - length cd)%nat with 0%nat by lia. cbn [skipn].
    rewrite app_assoc. f_equal. exact Hp.
  - apply overlaps_ok_snoc. split; [exact Ho|]. split; [|split]; cbn [fst snd].
    + rewrite length_app. lia.
    + exact Hk'.
    + rewrite firstn_app. replace (k - length cd)%nat with 0%nat by lia.
      cbn [firstn]. now rewrite app_nil_r.
  - apply Forall_app. split; [exact Hs|]. constructor; [|constructor].
    split; cbn [fst snd]; [exact Hsz|].
    rewrite firstn_app. replace (k - length cd)%nat with 0%nat by lia.
    cbn [firstn]. now rewrite app_nil_r.
  - apply Forall_app. split.
    + eapply Forall_impl; [|exact Hi]. intros a Ha. now apply incl_appl.
    + constructor; [|constructor]. cbn [snd].
      apply incl_app; [now apply incl_appl|]. apply incl_appr, incl_refl.
  - apply Forall_app. split; [exact Hn|]. constructor; [exact Hne|constructor].
Qed.

Lemma InvAt_flush (P : list text) docs cd total (_len : Z) ws k :
  InvAt ts P (docs, cd, total) ws k ->
  exists pre cd1,
    cd = pre ++ cd1 /\
    pop_front ts _len cd total = Some (cd1, measure ts cd1) /\
    keep_popping ts _len cd1 (measure ts cd1) = false /\
    (forall pre' x, pre = pre' ++ [x] ->
       keep_popping ts _len (x :: cd1) (measure ts (x :: cd1)) = true) /\
    InvAt ts P (docs ++ chunk_of ts (0%nat, cd), cd1, measure ts cd1)
          (ws ++ [(k, cd)]) (length cd1).
Proof.
  intros (Hd & Ht & Hp & Ho & Hs & Hi & Hn).
  destruct (pop_front_spec _len cd) as (pre & cd1 & E & Hpop & Hkeep & Hlast).
  exists pre, cd1. subst total. split; [exact E|]. split; [exact Hpop|].
  split; [exact Hkeep|]. split; [exact Hlast|].
  pose proof Ho as Ho'.
  apply overlaps_ok_snoc in Ho'. destruct Ho' as (_ & Hk & _).
  cbn [fst snd] in Hk.
  pose proof Hs as Hs'. apply Forall_app in Hs'. destruct Hs' as (_ & Hs1).
  apply Forall_inv in Hs1. destruct Hs1 as (Hsz & _). cbn [fst snd] in Hsz.
  pose proof Hi as Hi'. apply Forall_app in Hi'. destruct Hi' as (_ & Hi1).
  apply Forall_inv in Hi1. rename Hi1 into Hic. cbn [snd] in Hic.
  repeat split.
  - unfold chunks_of. rewrite flat_map_app. cbn. rewrite app_nil_r.
    f_equal. exact Hd.
  - unfold dedup. rewrite flat_map_app. cbn - [skipn]. rewrite app_nil_r.
    unfold fresh at 2. cbn [fst snd]. rewrite skipn_all, app_nil_r. exact Hp.
  - apply overlaps_ok_snoc. split; [exact Ho|].
    rewrite map_app. cbn [snd map]. rewrite last_last.
    split; [|split]; cbn [fst snd].
    + lia.
    + rewrite E, length_app. lia.
    + rewrite firstn_all. rewrite E at 2. rewrite E, length_app.
      replace (length pre + length cd1 - length cd1)%nat
        with (length pre) by lia.
      rewrite skipn_app, skipn_all, Nat.sub_diag. reflexivity.
  - apply Forall_app. split; [exact Hs|]. constructor; [|constructor].
    split; cbn [fst snd].
    + destruct Hsz as [Hsz|Hsz].
      * left. pose proof (measure_suffix pre cd1). rewrite <- E in H. lia.
      * right. rewrite E, length_app in Hsz. lia.
    + rewrite firstn_all. unfold keep_popping in Hkeep.
      apply orb_false_iff in Hkeep. destruct Hkeep as (Hkeep & _).
      now apply Z.ltb_ge in Hkeep.
  - apply Forall_app. split; [exact Hi|]. constructor; [|constructor].
    cbn [snd]. intros x Hx. apply Hic. rewrite E. apply in_or_app. now right.
  - rewrite E in Hn. now apply Forall_app in Hn.
Qed.

Lemma sep_if_shift (cd : list text) (d : text) :
  (0 <? length cd)%nat = (1 <? length (cd ++ [d]))%nat.
Proof.
  rewrite length_app. destruct cd as [|x r]; [reflexivity|].
  cbn [length]. symmetry. apply Nat.ltb_lt. lia.
Qed.

Lemma chunk_of_join (docs cd : list text) (k : nat) :
  match join_docs ts cd with
  | Some doc => docs ++ [doc]
  | None => docs
  end = docs ++ chunk_of ts (k, cd).
Proof.
  unfold chunk_of. cbn [snd].
  destruct (join_docs ts cd); [reflexivity|now rewrite app_nil_r].
Qed.

Lemma InvAt_total (P : list text) docs cd total ws k :
  InvAt ts P (docs, cd, total) ws k ->
  total = measure ts cd /\ Forall (fun l : text => l <> []) cd.
Proof. intros (_ & Ht & _ & _ & _ & _ & Hn). now split. Qed.



Lemma merge_step_Inv (P : list text) (st : merge_state) (d : text) :
  Inv ts P st -> d <> [] ->
  exists st', merge_step ts st d = Some st' /\ Inv ts (P ++ [d]) st'.
Proof.
  destruct st as ((docs, cd), total). intros (ws & k & HI) Hne.
  destruct (InvAt_total _ _ _ _ _ _ HI) as (Ht & _).
  unfold merge_step.
  destruct (chunk_size ts <? total + len d + sep_if ts (0 <? length cd)%nat)
    eqn:Hbig.
  - destruct (0 <? length cd)%nat eqn:Hcd.
    + destruct (InvAt_flush _ _ _ _ (len d) _ _ HI)
        as (pre & cd1 & E & Hpop & Hkeep & _ & HI1).
      rewrite Hpop, (chunk_of_join docs cd 0).
      eexists; split; [reflexivity|].
      exists (ws ++ [(k, cd)]), (length cd1).
      apply InvAt_push; [exact HI1|exact Hne|].
      destruct (InvAt_total _ _ _ _ _ _ HI1) as (Ht1 & Hn1).
      unfold keep_popping in Hkeep. apply orb_false_iff in Hkeep.
      destruct Hkeep as (_ & Hkeep). apply andb_false_iff in Hkeep.
      destruct Hkeep as [Hfit|Hzero].
      * left. apply Z.ltb_ge in Hfit.
        rewrite measure_snoc, <- sep_if_shift. lia.
      * right. apply Z.ltb_ge in Hzero.
        destruct cd1 as [|x r]; [simpl; lia|].
        assert (0 < measure ts (x :: r))
          by (apply measure_pos; [exact Hn1|discriminate]).
        lia.
    + eexists; split; [reflexivity|]. exists ws, k.
      apply InvAt_push; [exact HI|exact Hne|].
      right. destruct cd; [simpl; lia|discriminate].
  - eexists; split; [reflexivity|]. exists ws, k.
    apply InvAt_push; [exact HI|exact Hne|].
    left. apply Z.ltb_ge in Hbig.
    rewrite measure_snoc, <- sep_if_shift. lia.
Qed.

Lemma merge_loop_Inv (splits : list text) :
  forall (P : list text) (st : merge_state),
    Inv ts P st -> Forall (fun l : text => l <> []) splits ->
    exists st', merge_loop ts st splits = Some st' /\ Inv ts (P ++ splits) st'.
Proof.
  induction splits as [|d rest IH]; intros P st HI Hall.
  - exists st. rewrite app_nil_r. now split.
  - inversion Hall as [|? ? Hd Hrest]; subst.
    destruct (merge_step_Inv P st d HI Hd) as (st1 & Hstep & HI1).
    destruct (IH _ _ HI1 Hrest) as (st' & Hloop & HI').
    exists st'. cbn [merge_loop]. rewrite Hstep. split; [exact Hloop|].
    now rewrite <- app_assoc in HI'.
Qed.

(** [_merge_splits] never raises; its chunks are the joins of a chain of
  windows over the pieces. *)
Lemma merge_splits_windows (splits : list text) :
  Forall (fun l : text => l <> []) splits ->
  exists ws : list window,
    merge_splits ts splits = Some (chunks_of ts ws) /\
    dedup ws = splits /\
    overlaps_ok [] ws /\
    Forall (sized ts) ws /\
    Forall (fun kw : window => incl (snd kw) splits) ws.
Proof.
  intro Hall.
  destruct (merge_loop_Inv splits _ _ Inv_init Hall)
      as (((docs, cd), total) & Hloop & HI).
  destruct HI as (ws & k & Hd & Ht & Hp & Ho & Hs & Hi & Hn).
  exists (ws ++ [(k, cd)]). unfold merge_splits. rewrite Hloop.
  repeat split; try assumption.
  unfold chunks_of. rewrite flat_map_app. cbn [flat_map].
  rewrite app_nil_r. unfold chunk_of at 2. cbn [snd]. subst docs.
  destruct (join_docs ts cd); [reflexivity|now rewrite app_nil_r].
Qed.


End MergeFacts.

Lemma pieces_nonempty (ts : TextSplitter.t) (s : text) :
  Forall (fun l : text => l <> []) (pieces ts s).
Proof.
  apply Forall_forall. intros l Hl. unfold pieces in Hl.
  apply filter_In in Hl. destruct Hl as (_ & Hl).
  destruct l; [discriminate|congruence].
Qed.


Lemma join_docs_Some (ts : TextSplitter.t) (w : list text) (c : text) :
  join_docs ts w = Some c -> c = strip (join (sep ts) w) /\ c <> [].
Proof.
  unfold join_docs. destruct (strip (join (sep ts) w)) eqn:E; [discriminate|].
  intro H. inversion H. subst. split; [reflexivity|discriminate].
Qed.


Lemma text_splitter_overlap : 0 <= chunk_overlap text_splitter.
Proof. cbn. lia. Qed.

End SplitterFacts.

(** * Facts about the ranking *)

Module RankFacts.
Import VectorStore.

Lemma insert_perm (e : entry) (l : list entry) :
  Permutation (e :: l) (insert e l).
Proof.
  induction l as [|x r IH]; [reflexivity|].
  cbn [insert]. destruct (score x <=? score e)%Z; [reflexivity|].
  rewrite perm_swap. now apply perm_skip.
Qed.

Lemma rank_perm (es : list entry) : Permutation es (rank es).
Proof.
  induction es as [|e r IH]; [reflexivity|].
  cbn [rank]. rewrite <- insert_perm. now apply perm_skip.
Qed.

Lemma insert_sorted (e : entry) (l : list entry) :
  StronglySorted before l ->
  Forall (fun x => pos e < pos x) l ->
  StronglySorted before (insert e l).
Proof.
  induction l as [|x r IH]; intros Hs Hp.
  - repeat constructor.
  - cbn [insert]. apply StronglySorted_inv in Hs. destruct Hs as (Hr & Hx).
    pose proof (Forall_inv Hp) as Hpx. pose proof (Forall_inv_tail Hp) as Hpr.
    cbn beta in Hpx.
    destruct (score x <=? score e)%Z eqn:E.
    + apply Z.leb_le in E. constructor.
      * constructor; assumption.
      * constructor.
        { unfold before. lia. }
        rewrite Forall_forall in Hx, Hpr |- *. intros y Hy.
        specialize (Hx y Hy). specialize (Hpr y Hy). cbn beta in Hpr.
        unfold before in *. lia.
    + apply Z.leb_gt in E. constructor.
      * now apply IH.
      * rewrite Forall_forall in Hx |- *. intros y Hy.
        apply (Permutation_in _ (Permutation_sym (insert_perm e r))) in Hy.
        destruct Hy as [<-|Hy]; [unfold before; lia|now apply Hx].
Qed.

Lemma scored_pos (sim : Vector -> Vector -> Z) (q : Vector) (ix : index) :
  forall n, Forall (fun x => n <= pos x) (scored sim q n ix).
Proof.
  induction ix as [|[v c] r IH]; intro n; cbn [scored]; constructor.
  - cbn. lia.
  - eapply Forall_impl; [|apply (IH (S n))]. cbn beta. intros a Ha. lia.
Qed.

Lemma rank_sorted (sim : Vector -> Vector -> Z) (q : Vector) (ix : index) :
  forall n, StronglySorted before (rank (scored sim q n ix)).
Proof.
  induction ix as [|[v c] r IH]; intro n; cbn [scored rank].
  - constructor.
  - apply insert_sorted; [apply IH|].
    pose proof (scored_pos sim q r (S n)) as Hp.
    rewrite Forall_forall in Hp |- *. intros x Hx.
    apply (Permutation_in _ (Permutation_sym (rank_perm _))) in Hx.
    specialize (Hp x Hx). cbn. lia.
Qed.

(** Every scored entry is a pair of the index at its position. *)
Lemma scored_lookup (sim : Vector -> Vector -> Z) (q : Vector) (ix : index) :
  forall n e, In e (scored sim q n ix) ->
    exists v, nth_error ix (pos e - n) = Some (v, chunk e) /\
              score e = sim q v /\ n <= pos e.
Proof.
  induction ix as [|[v c] r IH]; intros n e He; [destruct He|].
  cbn [scored] in He. destruct He as [<-|He].
  - exists v. cbn. rewrite Nat.sub_diag. auto.
  - destruct (IH (S n) e He) as (v' & Hn & Hs & Hle).
    exists v'. replace (pos e - n) with (S (pos e - S n)) by lia.
    cbn [nth_error]. repeat split; try assumption. lia.
Qed.

Lemma scored_NoDup (sim : Vector -> Vector -> Z) (q : Vector) (ix : index) :
  forall n, NoDup (map pos (scored sim q n ix)).
Proof.
  induction ix as [|[v c] r IH]; intro n; cbn [scored map]; constructor.
  - intro H. apply in_map_iff in H. destruct H as (x & Hx & Hin).
    pose proof (scored_pos sim q r (S n)) as Hp.
    rewrite Forall_forall in Hp. specialize (Hp x Hin). cbn in Hx. lia.
  - apply IH.
Qed.

Lemma scored_chunks (sim : Vector -> Vector -> Z) (q : Vector) (ix : index) :
  forall n, map chunk (scored sim q n ix) = map snd ix.
Proof.
  induction ix as [|[v c] r IH]; intro n; [reflexivity|].
  cbn [scored map]. now rewrite IH.
Qed.

Lemma sorted_split (l1 l2 : list entry) :
  StronglySorted before (l1 ++ l2) ->
  forall e e', In e l1 -> In e' l2 -> before e e'.
Proof.
  induction l1 as [|x r IH]; intros Hs e e' He He'; [destruct He|].
  cbn in Hs. apply StronglySorted_inv in Hs. destruct Hs as (Hr & Hx).
  destruct He as [<-|He].
  - rewrite Forall_forall in Hx. apply Hx, in_or_app. now right.
  - now apply IH.
Qed.

Lemma sorted_prefix (l1 l2 : list entry) :
  StronglySorted before (l1 ++ l2) -> StronglySorted before l1.
Proof.
  induction l1 as [|x r IH]; intro Hs; [constructor|].
  cbn in Hs. apply StronglySorted_inv in Hs. destruct Hs as (Hr & Hx).
  constructor; [now apply IH|].
  apply Forall_app in Hx. tauto.
Qed.

Lemma scored_length (sim : Vector -> Vector -> Z) (q : Vector) (ix : index) :
  forall n, length (scored sim q n ix) = length ix.
Proof.
  induction ix as [|[v c] r IH]; intro n; [reflexivity|].
  cbn [scored length]. now rewrite IH.
Qed.

Lemma top_split (sim : Vector -> Vector -> Z) (ix : index) (q : Vector)
      (k : nat) :
  rank (scored sim q 0 ix) =
  top sim ix q k ++ skipn k (rank (scored sim q 0 ix)).
Proof. unfold top. now rewrite firstn_skipn. Qed.

Lemma top_in_scored (sim : Vector -> Vector -> Z) (ix : index) (q : Vector)
      (k : nat) (e : entry) :
  In e (top sim ix q k) -> In e (scored sim q 0 ix).
Proof.
  intro He.
  apply (Permutation_in _ (Permutation_sym (rank_perm _))).
  rewrite (top_split sim ix q k). apply in_or_app. now left.
Qed.

End RankFacts.

(** * Facts about a run of the script *)

(** A service that came back was built without a message. *)
Lemma init_drive_service_quiet (sv : Services) :
  drive_service sv = true -> snd (init_drive_service sv) = [].
Proof.
  unfold drive_service, init_drive_service.
  destruct (service_account_file sv); [|discriminate].
  now destruct (drive_build sv).
Qed.

(** A failed start shows exactly one error. *)
Lemma init_drive_service_failed (sv : Services) :
  drive_service sv = false ->
  exists msg : string, snd (init_drive_service sv) = [st_error msg].
Proof.
  unfold drive_service, init_drive_service.
  destruct (service_account_file sv); [|now eexists].
  destruct (drive_build sv); [discriminate|now eexists].
Qed.

(** The pass, by the outcome of the two start-up checks. *)
Lemma script_unfold (sv : Services) (w : Widgets) (s : SessionState) :
  script sv w s =
  if negb (drive_service sv) then (s, snd (init_drive_service sv), false)
  else if negb (api_key_set sv) then
    (s, [st_warning
           ("⚠️ OpenAI API key not found. " ++
            "Please set the OPENAI_API_KEY environment variable.")%string],
     false)
  else
    let '(out0, rerun0) := sidebar sv w in
    if rerun0 then (s, out0, true)
    else
      let '(s1, out1) := document_column sv w s in
      let s2 := init_messages s1 in
      let shown := document_banner s2 :: map show_message (history s2) in
      let '(s3, out3) := chat sv w s2 in
      let '(s4, rerun4) := clear_chat w s3 in
      (s4, out0 ++ out1 ++ shown ++ out3, rerun4).
Proof.
  unfold script, drive_service, init_drive_service.
  destruct (service_account_file sv); [|reflexivity].
  destruct (drive_build sv); reflexivity.
Qed.

(** The settings of every chain that [process_document] builds. *)
Lemma process_document_k (sv : Services) (path name : string) :
  match fst (process_document sv path name) with
  | Some chain => search_k chain = 4 /\ temperature chain = 0%Z
  | None => True
  end.
Proof.
  unfold process_document.
  destruct (format_of name) as [fmt|]; [|exact I].
  destruct (load sv fmt path) as [docs|]; [|exact I].
  destruct (split_documents text_splitter docs) as [[|c cs]|]; try exact I.
  destruct (VectorStore.build (embed sv) (c :: cs)); [|exact I].
  cbn. split; reflexivity.
Qed.

Section SessionFacts.

Variable sv : Services.
Variable w : Widgets.

Lemma init_messages_view (s : SessionState) : view (init_messages s) = view s.
Proof.
  unfold init_messages, view, history. destruct (messages s) eqn:E.
  - now rewrite E.
  - reflexivity.
Qed.

Lemma init_messages_history (s : SessionState) :
  messages (init_messages s) = Some (history s).
Proof.
  unfold init_messages, history. destruct (messages s) eqn:E; [|reflexivity].
  exact E.
Qed.

Lemma no_files_no_selection :
  supported_files sv = [] -> selected_file sv w = None.
Proof.
  unfold selected_file. intros ->. cbn [dict_keys].
  now destruct (file_selector w).
Qed.

Lemma document_column_state (s : SessionState) :
  fst (document_column sv w s) =
  match build_result sv w with
  | Some (name, Some chain) =>
      {| qa_chain := Some chain;
         current_document := Some name;
         messages := messages s |}
  | _ => s
  end.
Proof.
  unfold document_column, build_result.
  destruct (supported_files sv) eqn:Hf.
  - now rewrite (no_files_no_selection Hf).
  - destruct (selected_file sv w) as [[name id]|]; [|reflexivity].
    destruct (download_file sv id (local_path sv name)) as [[|] out];
      [|reflexivity].
    cbn [fst].
    destruct (process_document sv (local_path sv name) name) as [[chain|] out'];
      reflexivity.
Qed.

Lemma chat_silent (s : SessionState) :
  chat_input w = None -> chat sv w s = (s, []).
Proof. unfold chat. now intros ->. Qed.

Lemma chat_no_chain (s : SessionState) (prompt : string) :
  asks w prompt -> qa_chain s = None ->
  chat sv w s =
  (s, [st_error "Please select and process a document first!"]).
Proof. intros (Hc & Ht & _) Hq. unfold chat. now rewrite Hc, Ht, Hq. Qed.

Lemma chat_answered (s : SessionState) (prompt : string) (chain : QAChain)
      (response : string) (srcs : list Document) :
  asks w prompt -> qa_chain s = Some chain ->
  answer sv chain prompt = Ok (response, srcs) ->
  view (fst (chat sv w s)) =
  (qa_chain s, current_document s,
   history s ++ [user_turn prompt; assistant_turn response srcs]).
Proof.
  intros (Hc & Ht & _) Hq Ha. unfold chat. rewrite Hc, Ht, Hq, Ha.
  cbn. unfold view. cbn. rewrite <- app_assoc, ?Hq. reflexivity.
Qed.

Lemma chat_failed (s : SessionState) (prompt : string) (chain : QAChain)
      (e : string) :
  asks w prompt -> qa_chain s = Some chain ->
  answer sv chain prompt = Raise e ->
  view (fst (chat sv w s)) =
  (qa_chain s, current_document s,
   history s ++ [user_turn prompt; error_turn e]).
Proof.
  intros (Hc & Ht & _) Hq Ha. unfold chat. rewrite Hc, Ht, Hq, Ha.
  cbn. unfold view. cbn. rewrite <- app_assoc, ?Hq. reflexivity.
Qed.

Lemma clear_chat_idle (s : SessionState) :
  clear_button w = false -> clear_chat w s = (s, false).
Proof. unfold clear_chat. intros ->. now destruct (history s). Qed.

Lemma clear_chat_view (s : SessionState) :
  view (fst (clear_chat w s)) =
  (qa_chain s, current_document s,
   if clear_button w then [] else history s).
Proof.
  unfold clear_chat. destruct (history s) eqn:Hh.
  - unfold view. cbn. rewrite Hh. now destruct (clear_button w).
  - destruct (clear_button w); unfold view; cbn; [reflexivity|now rewrite Hh].
Qed.

(** A pass that gets past the sidebar runs the two columns in order. *)
Lemma script_columns (s : SessionState) :
  reaches_columns sv w = true ->
  let s2 := init_messages (fst (document_column sv w s)) in
  let s3 := fst (chat sv w s2) in
  script sv w s =
  (fst (clear_chat w s3),
   fst (sidebar sv w) ++ snd (document_column sv w s) ++
   (document_banner s2 :: map show_message (history s2)) ++
   snd (chat sv w s2),
   snd (clear_chat w s3)).
Proof.
  unfold reaches_columns. rewrite script_unfold. intro H.
  apply andb_prop in H. destruct H as (H & Hs).
  apply andb_prop in H. destruct H as (Hd & Hk). rewrite Hd, Hk. cbn [negb].
  destruct (sidebar sv w) as [out0 r0]. cbn [snd] in Hs.
  destruct r0; [discriminate|]. cbn [fst].
  destruct (document_column sv w s) as [s1 out1]. cbn [fst snd].
  destruct (chat sv w (init_messages s1)) as [s3 out3]. cbn [fst snd].
  now destruct (clear_chat w s3).
Qed.
End SessionFacts.

Lemma rerun_pass (sv : Services) (w : Widgets) (s : SessionState) :
  view (fst (fst (script sv (rerun_widgets w) s))) = view s /\
  forall p, ~ In (call_qa_chain p) (snd (fst (script sv (rerun_widgets w) s))).
Proof.
  rewrite script_unfold.
  destruct (drive_service sv) eqn:Hd; cbn [negb].
  2:{ split; [reflexivity|]. intros p Hp.
      destruct (init_drive_service_failed sv Hd) as (msg & Hm).
      rewrite Hm in Hp. destruct Hp as [Hp|[]]. discriminate. }
  destruct (negb (api_key_set sv)).
  { split; [reflexivity|]. intros p [H|[]]. discriminate. }
  assert (Hside : sidebar sv (rerun_widgets w) = ([], false)).
  { unfold sidebar. cbn. now destruct (uploaded_file w). }
  rewrite Hside.
  assert (Hsel : selected_file sv (rerun_widgets w) = None).
  { unfold selected_file. cbn [process_button file_selector rerun_widgets].
    destruct (nth_error _ _); [|reflexivity]. now rewrite andb_false_r. }
  pose proof (document_column_state sv (rerun_widgets w) s) as Hcol.
  unfold build_result in Hcol. rewrite Hsel in Hcol.
  destruct (document_column sv (rerun_widgets w) s) as [s1 out1] eqn:Hdc.
  cbn [fst] in Hcol. subst s1.
  rewrite (chat_silent sv (rerun_widgets w) (init_messages s) eq_refl).
  rewrite (clear_chat_idle (rerun_widgets w) (init_messages s) eq_refl).
  cbn [fst snd]. split; [apply init_messages_view|].
  intros p Hin. cbn [app] in Hin. rewrite app_nil_r in Hin.
  apply in_app_or in Hin. destruct Hin as [Hin|Hin].
  - unfold document_column in Hdc. rewrite Hsel in Hdc.
    unfold list_drive_files in Hdc.
    destruct (supported_files sv), (drive_list sv); inversion Hdc; subst out1;
      cbn in Hin; repeat (destruct Hin as [Hin|Hin]; try discriminate); auto.
  - destruct Hin as [Hin|Hin].
    + unfold document_banner in Hin.
      destruct (current_document (init_messages s)); discriminate.
    + apply in_map_iff in Hin. destruct Hin as (m & Hm & _). discriminate.
Qed.

Lemma main_view (sv : Services) (w : Widgets) (s : SessionState) :
  view (fst (main sv w s)) = view (fst (fst (script sv w s))).
Proof.
  unfold main. destruct (script sv w s) as [[s1 out1] r]. cbn [fst].
  destruct r; [|reflexivity].
  pose proof (rerun_pass sv w s1) as (Hv & _).
  destruct (script sv (rerun_widgets w) s1) as [[s2 out2] r2]. exact Hv.
Qed.

Lemma main_no_rerun (sv : Services) (w : Widgets) (s : SessionState) :
  snd (script sv w s) = false -> main sv w s = fst (script sv w s).
Proof.
  unfold main. destruct (script sv w s) as [[s1 out1] r]. cbn. now intros ->.
Qed.

(** Without the session: what a state function sees is its view. *)
Lemma view_eq (s s' : SessionState) :
  view s = view s' ->
  qa_chain s = qa_chain s' /\ current_document s = current_document s' /\
  history s = history s'.
Proof. unfold view. intro H. inversion H. auto. Qed.

Lemma script_stopped (sv : Services) (w : Widgets) (s : SessionState) :
  reaches_columns sv w = false ->
  fst (fst (script sv w s)) = s /\
  forall s', snd (fst (script sv w s')) = snd (fst (script sv w s)) /\
             snd (script sv w s') = snd (script sv w s).
Proof.
  unfold reaches_columns. intro H.
  assert (Hu : forall x,
             script sv w x =
             (x, snd (fst (script sv w s)), snd (script sv w s))).
  { intro x. rewrite !script_unfold.
    destruct (drive_service sv); [|reflexivity].
    destruct (api_key_set sv); [|reflexivity].
    cbn [negb andb] in *. destruct (sidebar sv w) as [out0 r0].
    cbn [snd] in H. destruct r0; [reflexivity|discriminate]. }
  split; [now rewrite (Hu s)|]. intro s'. now rewrite (Hu s').
Qed.

Lemma document_column_out (sv : Services) (w : Widgets) (s s' : SessionState) :
  snd (document_column sv w s) = snd (document_column sv w s').
Proof.
  unfold document_column.
  destruct (supported_files sv); [reflexivity|].
  destruct (selected_file sv w) as [[name id]|]; [|reflexivity].
  destruct (download_file sv id (local_path sv name)) as [[|] out];
    [|reflexivity].
  destruct (process_document sv (local_path sv name) name) as [[chain|] out'];
    reflexivity.
Qed.

Lemma document_column_view (sv : Services) (w : Widgets) (s : SessionState) :
  view (fst (document_column sv w s)) =
  match build_result sv w with
  | Some (name, Some chain) => (Some chain, Some name, history s)
  | _ => view s
  end.
Proof.
  rewrite document_column_state.
  destruct (build_result sv w) as [[name [chain|]]|]; reflexivity.
Qed.

Lemma chat_respects_view (sv : Services) (w : Widgets) (s s' : SessionState) :
  view s = view s' ->
  view (fst (chat sv w s)) = view (fst (chat sv w s')) /\
  snd (chat sv w s) = snd (chat sv w s').
Proof.
  intro Hv. pose proof (view_eq s s' Hv) as (Hq & Hc & Hh).
  unfold chat. destruct (chat_input w) as [prompt|]; [|now split].
  destruct (truthy prompt); [|now split].
  rewrite <- Hq. destruct (qa_chain s) as [chain|] eqn:E; [|now split].
  destruct (answer sv chain prompt) as [[response srcs]|e];
    unfold view, append_message; cbn; rewrite ?Hc, ?Hh, ?E, <- ?Hq, ?E;
    now split.
Qed.

Lemma clear_chat_respects_view (w : Widgets) (s s' : SessionState) :
  view s = view s' ->
  view (fst (clear_chat w s)) = view (fst (clear_chat w s')) /\
  snd (clear_chat w s) = snd (clear_chat w s').
Proof.
  intro Hv. pose proof (view_eq s s' Hv) as (Hq & Hc & Hh).
  rewrite !clear_chat_view, Hq, Hc, Hh. split; [reflexivity|].
  unfold clear_chat. rewrite Hh. destruct (history s'); [reflexivity|].
  now destruct (clear_button w).
Qed.

Lemma script_respects_view (sv : Services) (w : Widgets) (s s' : SessionState) :
  view s = view s' ->
  view (fst (fst (script sv w s))) = view (fst (fst (script sv w s'))) /\
  snd (fst (script sv w s)) = snd (fst (script sv w s')) /\
  snd (script sv w s) = snd (script sv w s').
Proof.
  intro Hv. destruct (reaches_columns sv w) eqn:Hr.
  - rewrite (script_columns sv w s Hr), (script_columns sv w s' Hr).
    cbn [fst snd].
    assert (H2 : view (init_messages (fst (document_column sv w s))) =
                 view (init_messages (fst (document_column sv w s')))).
    { rewrite !init_messages_view, !document_column_view.
      pose proof (view_eq s s' Hv) as (_ & _ & Hh). rewrite Hh, Hv.
      reflexivity. }
    pose proof (chat_respects_view sv w _ _ H2) as (H3 & Ho).
    pose proof (clear_chat_respects_view w _ _ H3) as (H4 & Hf).
    pose proof (view_eq _ _ H2) as (_ & Hc2 & Hh2).
    split; [exact H4|]. split; [|exact Hf].
    rewrite (document_column_out sv w s s'), Ho, Hh2.
    unfold document_banner. now rewrite Hc2.
  - pose proof (script_stopped sv w s Hr) as (Hs & Hall).
    pose proof (script_stopped sv w s' Hr) as (Hs' & _).
    rewrite Hs, Hs'. destruct (Hall s') as (Ho & Hf). auto.
Qed.

Lemma main_respects_view (sv : Services) (w : Widgets) (s s' : SessionState) :
  view s = view s' ->
  view (fst (main sv w s)) = view (fst (main sv w s')) /\
  snd (main sv w s) = snd (main sv w s').
Proof.
  intro Hv. pose proof (script_respects_view sv w s s' Hv) as (H1 & Ho & Hf).
  unfold main.
  destruct (script sv w s) as [[s1 out1] r],
           (script sv w s') as [[s1' out1'] r'].
  cbn [fst snd] in *. subst r' out1'. destruct r; [|now split].
  pose proof (script_respects_view sv (rerun_widgets w) s1 s1' H1)
    as (H2 & Ho2 & _).
  destruct (script sv (rerun_widgets w) s1) as [[s2 out2] r2],
           (script sv (rerun_widgets w) s1') as [[s2' out2'] r2'].
  cbn [fst snd] in *. subst out2'. now split.
Qed.

(** The view after one run. *)
Lemma main_columns_view (sv : Services) (w : Widgets) (s : SessionState) :
  reaches_columns sv w = true ->
  view (fst (main sv w s)) =
  view (fst (clear_chat w
          (fst (chat sv w (init_messages (fst (document_column sv w s))))))).
Proof.
  intro Hr. rewrite main_view, (script_columns sv w s Hr). reflexivity.
Qed.

Lemma main_stopped_view (sv : Services) (w : Widgets) (s : SessionState) :
  reaches_columns sv w = false -> view (fst (main sv w s)) = view s.
Proof.
  intro Hr. rewrite main_view.
  now rewrite (proj1 (script_stopped sv w s Hr)).
Qed.

Lemma asks_no_build (sv : Services) (w : Widgets) (prompt : string) :
  asks w prompt -> build_result sv w = None.
Proof.
  intros (_ & _ & Hp & _). unfold build_result, selected_file.
  destruct (nth_error _ _); [|reflexivity]. now rewrite Hp, andb_false_r.
Qed.

(** * Facts about building and asking *)

Lemma build_raises (embed : text -> result Vector) (chunks : list Document)
      (c : Document) (e : string) :
  In c chunks -> embed (page_content c) = Raise e ->
  exists e', VectorStore.build embed chunks = Raise e'.
Proof.
  induction chunks as [|x r IH]; intros Hin He; [destruct Hin|].
  cbn [VectorStore.build]. destruct (embed (page_content x)) eqn:Ex.
  - destruct Hin as [->|Hin]; [congruence|].
    destruct (IH Hin He) as (e' & ->). now exists e'.
  - now exists msg.
Qed.

Lemma build_chunks (embed : text -> result Vector) (chunks : list Document) :
  forall ix, VectorStore.build embed chunks = Ok ix -> map snd ix = chunks.
Proof.
  induction chunks as [|x r IH]; intros ix H; cbn [VectorStore.build] in H.
  - inversion H. reflexivity.
  - destruct (embed (page_content x)); [|discriminate].
    destruct (VectorStore.build embed r); [|discriminate].
    inversion H. cbn. now rewrite (IH _ eq_refl).
Qed.

Lemma process_document_provenance (sv : Services) (path name : string)
      (chain : QAChain) :
  fst (process_document sv path name) = Some chain ->
  exists fmt docs chunks,
    format_of name = Some fmt /\ load sv fmt path = Ok docs /\
    split_documents text_splitter docs = Some chunks /\ chunks <> [] /\
    VectorStore.build (embed sv) chunks = Ok (vectorstore chain) /\
    map snd (vectorstore chain) = chunks.
Proof.
  unfold process_document. intro H.
  destruct (format_of name) as [fmt|]; [|discriminate].
  destruct (load sv fmt path) as [docs|] eqn:Hl; [|discriminate].
  destruct (split_documents text_splitter docs) as [[|c cs]|] eqn:Hs;
    try discriminate.
  destruct (VectorStore.build (embed sv) (c :: cs)) as [ix|] eqn:Hb;
    [|discriminate].
  cbn in H. inversion H. subst chain. cbn [vectorstore].
  exists fmt, docs, (c :: cs).
  split; [reflexivity|]. split; [exact Hl|]. split; [exact Hs|].
  split; [discriminate|]. split; [exact Hb|].
  exact (build_chunks _ _ _ Hb).
Qed.

Lemma query_incl (sim : Vector -> Vector -> Z) (ix : VectorStore.index)
      (q : Vector) (k : nat) :
  incl (VectorStore.query sim ix q k) (map snd ix).
Proof.
  intros d Hd. unfold VectorStore.query in Hd. apply in_map_iff in Hd.
  destruct Hd as (e & <- & He). apply RankFacts.top_in_scored in He.
  rewrite <- (RankFacts.scored_chunks sim q ix 0). now apply in_map.
Qed.

Lemma answer_sources (sv : Services) (chain : QAChain)
      (question response : string) (srcs : list Document) :
  answer sv chain question = Ok (response, srcs) ->
  exists q, embed_query sv question = Ok q /\
            srcs = VectorStore.query (similarity sv) (vectorstore chain) q
                     (search_k chain).
Proof.
  unfold answer. destruct (embed_query sv question) as [q|]; [|discriminate].
  destruct (generate sv question _); [|discriminate].
  intro H. inversion H. now exists q.
Qed.

Lemma asked_view (sv : Services) (w : Widgets) (s : SessionState)
      (prompt : string) :
  reaches_columns sv w = true -> asks w prompt ->
  view (fst (main sv w s)) = view (fst (chat sv w (init_messages s))).
Proof.
  intros Hr Ha. pose proof Ha as (_ & _ & _ & Hk).
  rewrite (main_columns_view sv w s Hr), (clear_chat_idle w _ Hk). cbn [fst].
  rewrite document_column_state, (asks_no_build sv w prompt Ha). reflexivity.
Qed.

Lemma init_messages_chain (s : SessionState) :
  qa_chain (init_messages s) = qa_chain s /\
  current_document (init_messages s) = current_document s /\
  history (init_messages s) = history s.
Proof. apply view_eq, init_messages_view. Qed.

Lemma view_inv (s : SessionState) (c : option QAChain) (d : option string)
      (h : list Message) :
  view s = (c, d, h) ->
  qa_chain s = c /\ current_document s = d /\ history s = h.
Proof. unfold view. intro H. inversion H. auto. Qed.

Lemma chat_chain (sv : Services) (w : Widgets) (s : SessionState) :
  qa_chain (fst (chat sv w s)) = qa_chain s /\
  current_document (fst (chat sv w s)) = current_document s.
Proof.
  unfold chat. destruct (chat_input w) as [prompt|]; [|now split].
  destruct (truthy prompt); [|now split].
  destruct (qa_chain s) as [chain|] eqn:E; [|now split].
  destruct (answer sv chain prompt) as [[response srcs]|e]; cbn; now split.
Qed.

Lemma main_chain (sv : Services) (w : Widgets) (s : SessionState) :
  qa_chain (fst (main sv w s)) =
  if reaches_columns sv w then qa_chain (fst (document_column sv w s))
  else qa_chain s.
Proof.
  destruct (reaches_columns sv w) eqn:Hr.
  - pose proof (main_columns_view sv w s Hr) as Hv.
    rewrite clear_chat_view in Hv. apply view_inv in Hv.
    destruct Hv as (-> & _).
    rewrite (proj1 (chat_chain sv w _)).
    now destruct (init_messages_chain (fst (document_column sv w s)))
      as (-> & _).
  - pose proof (main_stopped_view sv w s Hr) as Hv. apply view_eq in Hv.
    tauto.
Qed.

Lemma main_keeps_chain (sv : Services) (w : Widgets) (s : SessionState) :
  no_build (sv, w) -> qa_chain (fst (main sv w s)) = qa_chain s.
Proof.
  intro Hn. rewrite main_chain. destruct (reaches_columns sv w); [|reflexivity].
  rewrite document_column_state. unfold no_build in Hn. cbn [fst snd] in Hn.
  destruct (build_result sv w) as [[name [chain|]]|]; try reflexivity.
  exfalso. now apply (Hn name chain).
Qed.

Lemma runs_keep_chain (rs : list (Services * Widgets)) :
  forall s : SessionState,
    Forall no_build rs -> qa_chain (runs rs s) = qa_chain s.
Proof.
  induction rs as [|[sv w] rest IH]; intros s Hall; [reflexivity|].
  cbn [runs fst snd]. inversion Hall as [|? ? Hn Hrest]; subst.
  rewrite (IH _ Hrest). now apply main_keeps_chain.
Qed.

Lemma build_result_chain (sv : Services) (w : Widgets) (name : string)
      (chain : QAChain) :
  build_result sv w = Some (name, Some chain) ->
  fst (process_document sv (local_path sv name) name) = Some chain.
Proof.
  unfold build_result.
  destruct (selected_file sv w) as [[n id]|]; [|discriminate].
  destruct (fst (download_file sv id (local_path sv n))); [|discriminate].
  intro H. injection H as -> H. exact H.
Qed.

Lemma asked_turn (sv : Services) (w : Widgets) (s : SessionState)
      (prompt : string) (chain : QAChain) :
  reaches_columns sv w = true -> asks w prompt -> qa_chain s = Some chain ->
  exists turn : Message,
    history (fst (main sv w s)) = history s ++ [user_turn prompt; turn] /\
    forall srcs, sources turn = Some srcs ->
                 incl srcs (map snd (vectorstore chain)).
Proof.
  intros Hr Ha Hq. pose proof (asked_view sv w s prompt Hr Ha) as Hv.
  destruct (init_messages_chain s) as (Hq' & Hc' & Hh').
  rewrite <- Hq' in Hq.
  destruct (answer sv chain prompt) as [[response srcs]|e] eqn:Hans.
  - rewrite (chat_answered sv w _ prompt chain response srcs Ha Hq Hans) in Hv.
    apply view_inv in Hv. destruct Hv as (_ & _ & Hh).
    exists (assistant_turn response srcs). rewrite Hh, Hh'.
    split; [reflexivity|].
    intros srcs' Hs. inversion Hs. subst srcs'.
    destruct (answer_sources sv chain prompt response srcs Hans)
      as (q & _ & ->).
    apply query_incl.
  - rewrite (chat_failed sv w _ prompt chain e Ha Hq Hans) in Hv.
    apply view_inv in Hv. destruct Hv as (_ & _ & Hh).
    exists (error_turn e). rewrite Hh, Hh'. split; [reflexivity|].
    intros srcs' Hs. discriminate.
Qed.

Lemma main_shows_history (sv : Services) (w : Widgets) (s : SessionState) :
  reaches_columns sv w = true ->
  exists pre post : list Effect,
    snd (main sv w s) = pre ++ map show_message (history s) ++ post.
Proof.
  intro Hr. pose proof (script_columns sv w s Hr) as Hs. cbn zeta in Hs.
  assert (Hh : history (init_messages (fst (document_column sv w s)))
               = history s).
  { destruct (init_messages_chain (fst (document_column sv w s)))
      as (_ & _ & ->).
    rewrite document_column_state.
    destruct (build_result sv w) as [[name [chain|]]|]; reflexivity. }
  rewrite Hh in Hs. unfold main. rewrite Hs.
  set (pre := fst (sidebar sv w) ++ snd (document_column sv w s) ++
              [document_banner (init_messages (fst (document_column sv w s)))]).
  set (out3 := snd (chat sv w (init_messages (fst (document_column sv w s))))).
  destruct (snd (clear_chat w _)).
  - destruct (script sv (rerun_widgets w) _) as [[s2 out2] r2].
    exists pre, (out3 ++ out2). cbn [snd]. unfold pre, out3.
    repeat (rewrite <- app_assoc; cbn [app]). reflexivity.
  - exists pre, out3. cbn [snd]. unfold pre, out3.
    repeat (rewrite <- app_assoc; cbn [app]). reflexivity.
Qed.

(** * The program on small inputs *)

(** Twenty-five lines of 99 letters: ten lines fill a chunk, two are
    carried over into the next one. *)
Example split_lines_of_99 :
  option_map (map (@length ascii))
    (TextSplitter.split_text text_splitter
       (concat (repeat (repeat "a"%char 99 ++ [newline]) 25)))
  = Some [999; 999; 899].
Proof. vm_compute. reflexivity. Qed.

(** Lines of 299 letters: three fill a chunk and none is carried over. *)
Example split_lines_of_299 :
  option_map (map (@length ascii))
    (TextSplitter.split_text text_splitter
       (concat (repeat (repeat "a"%char 299 ++ [newline]) 10)))
  = Some [899; 899; 899; 299].
Proof. vm_compute. reflexivity. Qed.

(** A text of blanks has no chunk, and [process_document] then reports
    that the document has no text. *)
Example split_blank_text :
  TextSplitter.split_text text_splitter (lit " " ++ [newline] ++ lit "  ")
  = Some [].
Proof. reflexivity. Qed.

(** The best chunk first, the tie in index order. *)
Example rank_sample_index :
  map page_content (VectorStore.query first_component sample_index [] 2)
  = [lit "two"; lit "one"].
Proof. reflexivity. Qed.

(** Processing the sample file in a fresh session. *)
Example process_sample_file :
  view (fst (main (sample_services true true) press_process fresh_session))
  = (Some sample_chain, Some "notes.txt"%string, []).
Proof. reflexivity. Qed.

(** Twelve lines of 99 letters: the windows behind the two chunks.  The
    eleventh line does not fit behind the first ten, and the second
    window repeats two lines, a third one being over the overlap. *)
Example windows_of_lines_of_99 :
  let l := repeat "a"%char 99 in
  let ws := [(0, repeat l 10); (2, repeat l 4)] in
  TextSplitter.split_text text_splitter
    (concat (repeat (l ++ [newline]) 12))
  = Some (Windows.chunks_of text_splitter ws) /\
  Windows.dedup ws = repeat l 12 /\
  Windows.overlaps_ok [] ws /\
  Forall Windows.adds ws /\
  Windows.greedy text_splitter ws.
Proof.
  cbv zeta. split; [vm_compute; reflexivity|].
  split; [reflexivity|].
  split.
  { cbn [Windows.overlaps_ok]. unfold Windows.joins. cbn [fst snd].
    rewrite !repeat_length. cbn [length].
    repeat split; first [lia|reflexivity]. }
  split.
  { repeat constructor; unfold Windows.adds; cbn [fst snd];
      rewrite repeat_length; lia. }
  cbn [Windows.greedy Windows.tight_chain snd]. split; [|exact I].
  exists (repeat "a"%char 99). cbn [fst snd].
  split; [reflexivity|]. split; [vm_compute; reflexivity|].
  split; [cbn; lia|]. left. vm_compute. reflexivity.
Qed.

(** * The claims *)

Import TextSplitter Windows SplitterFacts.
Open Scope string_scope.
Open Scope list_scope.






(** C3.  A query returns at most [k] chunks; they are pairs of the index,
    each position at most once, ranked by non-increasing similarity with
    the earlier chunk first on a tie; whatever is left out ranks after
    everything returned; an index of at most [k] pairs is returned whole,
    every chunk exactly once; and the chain that [process_document] builds
    asks for [k = 4]. *)
Theorem query_returns_top_k :
  forall (sim : Vector -> Vector -> Z) (ix : VectorStore.index) (q : Vector)
         (k : nat),
    let es := VectorStore.top sim ix q k in
    VectorStore.query sim ix q k = map VectorStore.chunk es /\
    length (VectorStore.query sim ix q k) <= k /\
    StronglySorted before es /\
    NoDup (map VectorStore.pos es) /\
    (forall e, In e es ->
       exists v,
         nth_error ix (VectorStore.pos e) = Some (v, VectorStore.chunk e) /\
         VectorStore.score e = sim q v) /\
    (forall e e', In e es -> In e' (VectorStore.scored sim q 0 ix) ->
                  ~ In e' es -> before e e') /\
    (length ix <= k ->
     Permutation (VectorStore.query sim ix q k) (map snd ix)) /\
    (forall (sv : Services) (path name : string),
       match fst (process_document sv path name) with
       | Some chain => search_k chain = 4
       | None => True
       end).
Proof.
  intros sim ix q k es.
  pose proof (RankFacts.rank_sorted sim q ix 0) as Hsorted.
  pose proof (RankFacts.top_split sim ix q k) as Hsplit.
  fold es in Hsplit. rewrite Hsplit in Hsorted.
  split; [reflexivity|].
  split; [|split; [|split; [|split; [|split; [|split]]]]].
  - unfold VectorStore.query, VectorStore.top.
    rewrite length_map. apply firstn_le_length.
  - exact (RankFacts.sorted_prefix _ _ Hsorted).
  - pose proof (RankFacts.scored_NoDup sim q ix 0) as Hnd.
    apply (Permutation_NoDup
             (Permutation_map VectorStore.pos (RankFacts.rank_perm _))) in Hnd.
    rewrite Hsplit, map_app in Hnd. now apply NoDup_app_remove_r in Hnd.
  - intros e He. apply RankFacts.top_in_scored in He.
    destruct (RankFacts.scored_lookup sim q ix 0 e He) as (v & Hn & Hs & _).
    rewrite Nat.sub_0_r in Hn. now exists v.
  - intros e e' He He' Hout.
    apply (RankFacts.sorted_split _ _ Hsorted); [exact He|].
    apply (Permutation_in _ (RankFacts.rank_perm _)) in He'.
    rewrite Hsplit in He'. apply in_app_or in He'. tauto.
  - intro Hk. unfold VectorStore.query, VectorStore.top.
    rewrite firstn_all2.
    + rewrite <- (RankFacts.scored_chunks sim q ix 0).
      apply Permutation_map, Permutation_sym, RankFacts.rank_perm.
    + rewrite <- (Permutation_length (RankFacts.rank_perm _)).
      now rewrite RankFacts.scored_length.
  - intros sv path name. pose proof (process_document_k sv path name) as H.
    destruct (fst (process_document sv path name)); tauto.
Qed.

(** C3 on an index of three chunks and [k = 4]: all three come back, the
    best first and the tie in index order. *)
Lemma query_returns_top_k_witness :
  Permutation (VectorStore.query first_component sample_index [] 4)
              (map snd sample_index) /\
  map VectorStore.pos (VectorStore.top first_component sample_index [] 4)
  = [1; 0; 2].
Proof.
  split; [|reflexivity].
  apply (query_returns_top_k first_component sample_index [] 4).
  cbn. lia.
Defined.

(** C4.  When the embedding of any chunk raises, [process_document]
    returns no chain; and a run whose build fails, in whatever step,
    leaves the chain, the document name and the conversation as they
    were, so that every later run behaves as if the failed build had not
    been attempted. *)
Theorem build_is_all_or_nothing :
  forall (sv : Services) (w : Widgets) (s : SessionState) (name : string),
    (forall path fmt docs chunks c e,
        format_of name = Some fmt -> load sv fmt path = Ok docs ->
        split_documents text_splitter docs = Some chunks ->
        In c chunks -> embed sv (page_content c) = Raise e ->
        fst (process_document sv path name) = None) /\
    (build_result sv w = Some (name, None) ->
     chat_input w = None -> clear_button w = false ->
     view (fst (main sv w s)) = view s /\
     forall sv' w',
       view (fst (main sv' w' (fst (main sv w s)))) =
       view (fst (main sv' w' s)) /\
       snd (main sv' w' (fst (main sv w s))) = snd (main sv' w' s)).
Proof.
  intros sv w s name. split.
  - intros path fmt docs chunks c e Hf Hl Hs Hin He.
    unfold process_document. rewrite Hf, Hl, Hs.
    destruct chunks as [|x r]; [reflexivity|].
    destruct (build_raises (embed sv) (x :: r) c e Hin He) as (e' & ->).
    reflexivity.
  - intros Hb Hc Hk.
    assert (Hv : view (fst (main sv w s)) = view s).
    { destruct (reaches_columns sv w) eqn:Hr;
        [|now apply main_stopped_view].
      rewrite (main_columns_view sv w s Hr).
      rewrite (chat_silent sv w _ Hc), (clear_chat_idle w _ Hk). cbn [fst].
      rewrite init_messages_view, document_column_view, Hb. reflexivity. }
    split; [exact Hv|]. intros sv' w'. now apply main_respects_view.
Qed.

(** C4 with the embedding service down and a document already indexed. *)
Lemma build_is_all_or_nothing_witness :
  fst (process_document (sample_services false true) "/tmp/notes.txt"
         "notes.txt") = None /\
  view (fst (main (sample_services false true) press_process indexed_session))
  = view indexed_session.
Proof.
  destruct (build_is_all_or_nothing (sample_services false true) press_process
              indexed_session "notes.txt") as (Hfail & Hkeep).
  split.
  - apply (Hfail "/tmp/notes.txt" TXT [sample_document] [sample_document]
             sample_document "quota"); try reflexivity. now left.
  - apply Hkeep; reflexivity.
Defined.

(** C5.  A question asked while no chain is in the session is answered by
    the error asking to process a document first; the chain is not called
    and the session is left as it was. *)
Theorem query_without_document :
  forall (sv : Services) (w : Widgets) (s : SessionState) (prompt : string),
    reaches_columns sv w = true -> asks w prompt -> qa_chain s = None ->
    In (st_error "Please select and process a document first!")
       (snd (main sv w s)) /\
    (forall p, ~ In (call_qa_chain p) (snd (main sv w s))) /\
    view (fst (main sv w s)) = view s.
Proof.
  intros sv w s prompt Hr Ha Hq.
  pose proof (asks_no_build sv w prompt Ha) as Hb.
  pose proof Ha as (_ & _ & Hp & Hk).
  pose proof (document_column_state sv w s) as Hcol. rewrite Hb in Hcol.
  assert (Hq2 : qa_chain (init_messages s) = None).
  { pose proof (init_messages_view s) as Hv. apply view_eq in Hv.
    destruct Hv as (-> & _). exact Hq. }
  pose proof (script_columns sv w s Hr) as Hs. cbn zeta in Hs.
  rewrite Hcol, (chat_no_chain sv w _ prompt Ha Hq2) in Hs. cbn [fst snd] in Hs.
  rewrite (clear_chat_idle w _ Hk) in Hs. cbn [fst snd] in Hs.
  rewrite main_no_rerun by now rewrite Hs. rewrite Hs. cbn [fst snd].
  split; [|split].
  - apply in_or_app. right. apply in_or_app. right.
    apply in_or_app. right. now left.
  - intros p Hin. apply in_app_or in Hin. destruct Hin as [Hin|Hin].
    + unfold sidebar, upload_to_drive in Hin.
      destruct (uploaded_file w); [|destruct Hin].
      destruct (upload_button w); [|destruct Hin].
      destruct (drive_create sv s0) as [fid|]; [destruct (truthy fid)|];
        cbn in Hin; repeat (destruct Hin as [Hin|Hin]; try discriminate); auto.
    + apply in_app_or in Hin. destruct Hin as [Hin|Hin].
      * unfold document_column in Hin.
        assert (Hsel : selected_file sv w = None).
        { unfold build_result in Hb.
          destruct (selected_file sv w) as [[n i]|]; [|reflexivity].
          destruct (fst (download_file sv i (local_path sv n))); discriminate. }
        rewrite Hsel in Hin. unfold list_drive_files in Hin.
        destruct (supported_files sv), (drive_list sv); cbn in Hin;
          repeat (destruct Hin as [Hin|Hin]; try discriminate); auto.
      * apply in_app_or in Hin. destruct Hin as [Hin|Hin].
        { destruct Hin as [Hin|Hin].
          - unfold document_banner in Hin.
            destruct (current_document (init_messages s)); discriminate.
          - apply in_map_iff in Hin. destruct Hin as (m & Hm & _).
            discriminate. }
        { destruct Hin as [Hin|[]]. discriminate. }
  - apply init_messages_view.
Qed.

(** C5 on a fresh session. *)
Lemma query_without_document_witness :
  In (st_error "Please select and process a document first!")
     (snd (main (sample_services true true) (type_question "what is X")
             fresh_session)) /\
  view (fst (main (sample_services true true) (type_question "what is X")
               fresh_session)) = view fresh_session.
Proof.
  destruct (query_without_document (sample_services true true)
              (type_question "what is X") fresh_session "what is X")
    as (Herr & _ & Hsame).
  - reflexivity.
  - repeat split.
  - reflexivity.
  - now split.
Defined.

(** C6.  When the generation call raises, the conversation gains the
    question as a user turn followed by an assistant turn carrying the
    error text; nothing else changes. *)
Theorem generation_error_is_recorded :
  forall (sv : Services) (w : Widgets) (s : SessionState) (prompt : string)
         (chain : QAChain) (q : Vector) (e : string),
    reaches_columns sv w = true -> asks w prompt ->
    qa_chain s = Some chain ->
    embed_query sv prompt = Ok q ->
    generate sv prompt
      (VectorStore.query (similarity sv) (vectorstore chain) q
         (search_k chain)) = Raise e ->
    view (fst (main sv w s)) =
    (qa_chain s, current_document s,
     history s ++ [user_turn prompt; error_turn e]).
Proof.
  intros sv w s prompt chain q e Hr Ha Hq He Hg.
  rewrite (asked_view sv w s prompt Hr Ha).
  destruct (init_messages_chain s) as (Hq' & Hc' & Hh').
  rewrite (chat_failed sv w (init_messages s) prompt chain e Ha).
  - now rewrite Hq', Hc', Hh'.
  - now rewrite Hq'.
  - unfold answer. now rewrite He, Hg.
Qed.

(** C6 with the chat model timing out. *)
Lemma generation_error_is_recorded_witness :
  history (fst (main (sample_services true false) (type_question "why")
                  indexed_session))
  = [user_turn "hi"; assistant_turn "42" [];
     user_turn "why"; error_turn "timeout"].
Proof.
  pose proof (generation_error_is_recorded (sample_services true false)
                (type_question "why") indexed_session "why" sample_chain
                [1%Z] "timeout") as H.
  apply (f_equal snd) in H; [exact H| | | | |];
    try reflexivity; repeat split.
Defined.

(** C8.  Clearing the chat empties the conversation and leaves the chain
    and the document name alone; the next question is answered by the
    same chain. *)
Theorem clear_keeps_the_index :
  forall (sv : Services) (w : Widgets) (s : SessionState),
    reaches_columns sv w = true ->
    clear_button w = true -> chat_input w = None ->
    process_button w = false ->
    view (fst (main sv w s)) = (qa_chain s, current_document s, []) /\
    forall (sv' : Services) (w' : Widgets) (prompt : string)
           (chain : QAChain) (response : string) (srcs : list Document),
      reaches_columns sv' w' = true -> asks w' prompt ->
      qa_chain s = Some chain ->
      answer sv' chain prompt = Ok (response, srcs) ->
      view (fst (main sv' w' (fst (main sv w s)))) =
      (Some chain, current_document s,
       [user_turn prompt; assistant_turn response srcs]).
Proof.
  intros sv w s Hr Hk Hc Hp.
  assert (Hb : build_result sv w = None).
  { unfold build_result, selected_file.
    destruct (nth_error _ _); [|reflexivity]. now rewrite Hp, andb_false_r. }
  assert (Hv : view (fst (main sv w s)) = (qa_chain s, current_document s, [])).
  { rewrite (main_columns_view sv w s Hr), (chat_silent sv w _ Hc). cbn [fst].
    rewrite clear_chat_view, Hk, document_column_state, Hb.
    destruct (init_messages_chain s) as (-> & -> & _). reflexivity. }
  split; [exact Hv|].
  intros sv' w' prompt chain response srcs Hr' Ha Hq Hans.
  apply view_inv in Hv. destruct Hv as (Hq1 & Hc1 & Hh1).
  rewrite (asked_view sv' w' _ prompt Hr' Ha).
  destruct (init_messages_chain (fst (main sv w s))) as (Hq2 & Hc2 & Hh2).
  rewrite (chat_answered sv' w' _ prompt chain response srcs Ha).
  - rewrite Hq2, Hc2, Hh2, Hq1, Hc1, Hh1, Hq. reflexivity.
  - now rewrite Hq2, Hq1.
  - exact Hans.
Qed.

(** C8 on an indexed session with two turns. *)
Lemma clear_keeps_the_index_witness :
  view (fst (main (sample_services true true) press_clear indexed_session))
  = (Some sample_chain, Some "notes.txt", []) /\
  view (fst (main (sample_services true true) (type_question "what is X")
               (fst (main (sample_services true true) press_clear
                       indexed_session))))
  = (Some sample_chain, Some "notes.txt",
     [user_turn "what is X"; assistant_turn "42" [sample_document]]).
Proof.
  destruct (clear_keeps_the_index (sample_services true true) press_clear
              indexed_session) as (Hcleared & Hlater); try reflexivity.
  split; [exact Hcleared|].
  apply (Hlater (sample_services true true) (type_question "what is X")
           "what is X" sample_chain "42" [sample_document]);
    try reflexivity. repeat split.
Defined.

(** C9.  After a run that processes a document successfully, and any
    later runs that process none, the session holds the chain built in
    that run; its index holds exactly the chunks of the newly loaded
    document; and the sources recorded for any question asked then are
    chunks of that index. *)
Theorem switch_discards_previous_index :
  forall (sv : Services) (w : Widgets) (s : SessionState) (name : string)
         (chain : QAChain) (rs : list (Services * Widgets)),
    reaches_columns sv w = true ->
    build_result sv w = Some (name, Some chain) ->
    Forall no_build rs ->
    let s' := runs rs (fst (main sv w s)) in
    qa_chain s' = Some chain /\
    (exists fmt docs chunks,
        format_of name = Some fmt /\
        load sv fmt (local_path sv name) = Ok docs /\
        split_documents text_splitter docs = Some chunks /\
        map snd (vectorstore chain) = chunks) /\
    forall (sv' : Services) (w' : Widgets) (prompt : string),
      reaches_columns sv' w' = true -> asks w' prompt ->
      exists turn : Message,
        history (fst (main sv' w' s')) =
        history s' ++ [user_turn prompt; turn] /\
        forall srcs, sources turn = Some srcs ->
                     incl srcs (map snd (vectorstore chain)).
Proof.
  intros sv w s name chain rs Hr Hb Hall s'.
  assert (Hq : qa_chain s' = Some chain).
  { unfold s'. rewrite (runs_keep_chain rs _ Hall), main_chain, Hr.
    now rewrite document_column_state, Hb. }
  split; [exact Hq|]. split.
  - destruct (process_document_provenance sv (local_path sv name) name chain
                (build_result_chain sv w name chain Hb))
      as (fmt & docs & chunks & Hf & Hl & Hs & _ & _ & Hm).
    now exists fmt, docs, chunks.
  - intros sv' w' prompt Hr' Ha. now apply asked_turn.
Qed.

(** C9: processing a document in an indexed session, then clearing the
    chat. *)
Lemma switch_discards_previous_index_witness :
  qa_chain (runs [(sample_services true true, press_clear)]
              (fst (main (sample_services true true) press_process
                      indexed_session)))
  = Some sample_chain.
Proof.
  apply (switch_discards_previous_index (sample_services true true)
           press_process indexed_session "notes.txt" sample_chain
           [(sample_services true true, press_clear)]).
  - reflexivity.
  - reflexivity.
  - constructor; [|constructor]. intros name chain. cbn. discriminate.
Defined.

(** C10.  A run that processes a document successfully sets the chain and
    the document name and leaves the conversation as it was; that run and
    every later one that reaches the chat column show all earlier turns,
    each as a chat message with its role, its text and, for a turn with
    sources, what is shown of each source: its text, cut after 500
    characters and followed by three dots when it is longer. *)
Theorem processing_keeps_history :
  forall (sv : Services) (w : Widgets) (s : SessionState) (name : string)
         (chain : QAChain),
    reaches_columns sv w = true ->
    build_result sv w = Some (name, Some chain) ->
    chat_input w = None -> clear_button w = false ->
    let shown :=
      map (fun m : Message =>
             st_chat_message (role m) (content m)
               (option_map
                  (map (fun d : Document =>
                          if (500 <? length (page_content d))%nat
                          then firstn 500 (page_content d) ++ lit "..."
                          else page_content d))
                  (sources m)))
          (history s) in
    view (fst (main sv w s)) = (Some chain, Some name, history s) /\
    (exists pre post : list Effect,
        snd (main sv w s) = pre ++ shown ++ post) /\
    forall (sv' : Services) (w' : Widgets),
      reaches_columns sv' w' = true ->
      exists pre post : list Effect,
        snd (main sv' w' (fst (main sv w s))) = pre ++ shown ++ post.
Proof.
  intros sv w s name chain Hr Hb Hc Hk shown.
  change shown with (map show_message (history s)). clear shown.
  assert (Hv : view (fst (main sv w s)) = (Some chain, Some name, history s)).
  { rewrite (main_columns_view sv w s Hr), (chat_silent sv w _ Hc),
      (clear_chat_idle w _ Hk). cbn [fst].
    now rewrite init_messages_view, document_column_view, Hb. }
  split; [exact Hv|]. split; [now apply main_shows_history|].
  intros sv' w' Hr'. apply view_inv in Hv. destruct Hv as (_ & _ & <-).
  now apply main_shows_history.
Qed.

(** C10 on a session whose recorded answer cites a chunk of the earlier
    document: the chain and the name are replaced, the two turns stay,
    and the run shows them, the long source cut to 500 characters. *)
Lemma processing_keeps_history_witness :
  view (fst (main (sample_services true true) press_process
               answered_session))
  = (Some sample_chain, Some "notes.txt",
     [user_turn "hi"; assistant_turn "42" [old_chunk]]) /\
  exists pre post : list Effect,
    snd (main (sample_services true true) press_process answered_session)
    = pre ++
      [st_chat_message user "hi" None;
       st_chat_message assistant "42"
         (Some [repeat "g"%char 500 ++ lit "..."])] ++ post.
Proof.
  destruct (processing_keeps_history (sample_services true true)
              press_process answered_session "notes.txt" sample_chain)
    as (Hv & Hs & _); try reflexivity.
  split; [exact Hv|exact Hs].
Defined.

Close Scope string_scope.

Open Scope string_scope.
Open Scope list_scope.

(** * Further properties of the program *)

(** ** Strings and file names *)

Lemma lower_app (a b : string) : lower (a ++ b) = (lower a ++ lower b)%string.
Proof.
  induction a as [|c a IH]; [reflexivity|]. cbn. now rewrite IH.
Qed.

Lemma lower_length (a : string) : String.length (lower a) = String.length a.
Proof.
  induction a as [|c a IH]; [reflexivity|]. cbn. now rewrite IH.
Qed.

Lemma string_length_app (a b : string) :
  String.length (a ++ b) = String.length a + String.length b.
Proof.
  induction a as [|c a IH]; [reflexivity|]. cbn. now rewrite IH.
Qed.

Lemma substring_skip (a b : string) :
  substring (String.length a) (String.length b) (a ++ b) = b.
Proof.
  induction a as [|c a IH]; cbn.
  - induction b as [|d b IHb]; [reflexivity|]. cbn. now rewrite IHb.
  - exact IH.
Qed.

Lemma endswith_app (a b : string) : endswith (a ++ b) b = true.
Proof.
  unfold endswith. rewrite string_length_app.
  replace (String.length a + String.length b - String.length b)
    with (String.length a) by lia.
  rewrite substring_skip, String.eqb_refl, andb_true_r.
  apply Nat.leb_le. lia.
Qed.

Lemma substring_app (a b : string) (n m : nat) :
  substring (String.length a + n) m (a ++ b) = substring n m b.
Proof.
  induction a as [|c a IH]; [reflexivity|]. cbn. exact IH.
Qed.

(** Whether a string ends with a suffix is decided by its last characters. *)
Lemma endswith_app_short (a b x : string) :
  String.length x <= String.length b ->
  endswith (a ++ b) x = endswith b x.
Proof.
  intro Hl. unfold endswith. rewrite string_length_app.
  replace (String.length a + String.length b - String.length x)
    with (String.length a + (String.length b - String.length x)) by lia.
  rewrite substring_app. f_equal.
  apply eq_true_iff_eq. rewrite !Nat.leb_le. lia.
Qed.

Lemma substring_suffix (s : string) :
  forall k, k <= String.length s ->
    exists p, s = (p ++ substring k (String.length s - k) s)%string.
Proof.
  induction s as [|c s IH]; intros k Hk.
  - exists "". cbn in Hk. now replace k with 0 by lia.
  - destruct k as [|k].
    + exists "". cbn. f_equal.
      clear IH Hk. induction s as [|d s IHs]; [reflexivity|].
      cbn. now rewrite <- IHs at 1.
    + cbn in Hk. destruct (IH k) as (p & Hp); [lia|].
      exists (String c p). cbn. now rewrite <- Hp.
Qed.

Lemma endswith_split (s x : string) :
  endswith s x = true -> exists p, s = (p ++ x)%string.
Proof.
  unfold endswith. intro H. apply andb_prop in H. destruct H as (Hl & He).
  apply Nat.leb_le in Hl. apply String.eqb_eq in He.
  destruct (substring_suffix s (String.length s - String.length x))
    as (p & Hp); [lia|].
  replace (String.length s - (String.length s - String.length x))
    with (String.length x) in Hp by lia.
  exists p. now rewrite He in Hp.
Qed.

Lemma app_same_end (p q x y : string) :
  (p ++ x = q ++ y)%string -> String.length y <= String.length x ->
  exists r, x = (r ++ y)%string.
Proof.
  revert q. induction p as [|c p IH]; intros q H Hl.
  - now exists q.
  - destruct q as [|d q].
    + cbn in H. apply (f_equal String.length) in H.
      cbn in H. rewrite string_length_app in H. lia.
    + cbn in H. inversion H. now apply (IH q).
Qed.

(** Of two suffixes of one string, the shorter ends the longer. *)
Lemma endswith_both (s x y : string) :
  endswith s x = true -> endswith s y = true ->
  String.length y <= String.length x -> endswith x y = true.
Proof.
  intros Hx Hy Hl.
  destruct (endswith_split s x Hx) as (p & Hp).
  destruct (endswith_split s y Hy) as (q & Hq).
  rewrite Hp in Hq. destruct (app_same_end p q x y Hq Hl) as (r & ->).
  apply endswith_app.
Qed.

(** X1.  The format of a file is decided by the end of its name, whatever
    the case of its letters: a name ending in an extension that lowers to
    [.pdf], [.docx] or [.txt] is loaded as that format. *)
Theorem format_by_suffix :
  forall (stem ext : string),
    (lower ext = ".pdf" -> format_of (stem ++ ext) = Some PDF) /\
    (lower ext = ".docx" -> format_of (stem ++ ext) = Some DOCX) /\
    (lower ext = ".txt" -> format_of (stem ++ ext) = Some TXT).
Proof.
  intros stem ext. unfold format_of. rewrite lower_app.
  repeat split; intros ->.
  - now rewrite endswith_app.
  - rewrite (endswith_app_short (lower stem) ".docx" ".pdf")
      by (cbn [String.length]; lia).
    cbn [endswith]. now rewrite endswith_app.
  - rewrite (endswith_app_short (lower stem) ".txt" ".pdf")
      by (cbn [String.length]; lia).
    destruct (endswith (lower stem ++ ".txt") ".docx") eqn:E.
    + pose proof (endswith_both _ _ _ E (endswith_app (lower stem) ".txt"))
        as H.
      discriminate H. cbn. lia.
    + now rewrite endswith_app.
Qed.

Lemma format_by_suffix_witness :
  format_of "Report.PDF" = Some PDF /\
  format_of "notes.Docx" = Some DOCX /\
  format_of "READ.ME.TXT" = Some TXT.
Proof.
  destruct (format_by_suffix "Report" ".PDF") as (H1 & _ & _).
  destruct (format_by_suffix "notes" ".Docx") as (_ & H2 & _).
  destruct (format_by_suffix "READ.ME" ".TXT") as (_ & _ & H3).
  split; [apply H1; reflexivity|].
  split; [apply H2; reflexivity|apply H3; reflexivity].
Defined.

(** ** The file options *)

Lemma seen_spec (name : string) (seen : list string) :
  existsb (String.eqb name) seen = true <-> In name seen.
Proof.
  rewrite existsb_exists. split.
  - intros (x & Hx & He). apply String.eqb_eq in He. now subst.
  - intro H. exists name. split; [exact H|apply String.eqb_refl].
Qed.

Lemma dict_keys_spec (files : list (string * string)) :
  forall (seen : list string) (name : string),
    In name (dict_keys seen files) <->
    In name (map fst files) /\ ~ In name seen.
Proof.
  induction files as [|[n i] rest IH]; intros seen name;
    cbn [dict_keys map fst].
  - cbn. tauto.
  - destruct (existsb (String.eqb n) seen) eqn:E.
    + apply seen_spec in E. rewrite IH. cbn [In]. split.
      * tauto.
      * intros ([<-|H] & Hn); tauto.
    + assert (Hn : ~ In n seen).
      { intro H. apply seen_spec in H. congruence. }
      cbn [In]. rewrite IH. cbn [In]. split.
      * intros [<-|(H & Hs)]; [tauto|]. split; [tauto|]. intro; apply Hs; tauto.
      * intros ([<-|H] & Hs); [tauto|].
        destruct (String.eqb_spec n name) as [->|Hne]; [tauto|].
        right. split; [exact H|]. intros [Heq|Hin]; [congruence|tauto].
Qed.

Lemma dict_keys_NoDup (files : list (string * string)) :
  forall seen : list string, NoDup (dict_keys seen files).
Proof.
  induction files as [|[n i] rest IH]; intro seen; cbn [dict_keys].
  - constructor.
  - destruct (existsb (String.eqb n) seen); [apply IH|].
    constructor; [|apply IH].
    rewrite dict_keys_spec. cbn [In]. tauto.
Qed.

Lemma dict_get_None (files : list (string * string)) (key : string) :
  dict_get files key = None <-> ~ In key (map fst files).
Proof.
  induction files as [|[n i] rest IH]; cbn [dict_get map fst In].
  - tauto.
  - destruct (dict_get rest key) as [v|].
    + split; [discriminate|]. intro H. exfalso. apply H. right.
      destruct (in_dec string_dec key (map fst rest)) as [Hin|Hout];
        [exact Hin|]. apply IH in Hout. discriminate.
    + destruct (String.eqb_spec n key) as [->|Hne].
      * split; [discriminate|tauto].
      * split; [|reflexivity]. intros _ [H|H]; [congruence|].
        now apply (proj1 IH).
Qed.

Lemma dict_get_In (files : list (string * string)) (key id : string) :
  dict_get files key = Some id -> In (key, id) files.
Proof.
  induction files as [|[n i] rest IH]; cbn [dict_get]; [discriminate|].
  destruct (dict_get rest key) as [v|].
  - intro H. inversion H. subst. right. now apply IH.
  - destruct (String.eqb_spec n key) as [->|Hne]; [|discriminate].
    intro H. inversion H. now left.
Qed.

Lemma dict_get_last (pre post : list (string * string)) (k v : string) :
  ~ In k (map fst post) -> dict_get (pre ++ (k, v) :: post) k = Some v.
Proof.
  intro Hout. induction pre as [|[n i] pre IH]; cbn [app dict_get].
  - apply dict_get_None in Hout. rewrite Hout. now rewrite String.eqb_refl.
  - now rewrite IH.
Qed.

Lemma dict_keys_app (pre post : list (string * string)) :
  forall seen : list string,
    exists more : list string,
      dict_keys seen (pre ++ post) = dict_keys seen pre ++ more.
Proof.
  induction pre as [|[n i] pre IH]; intro seen; cbn [app dict_keys].
  - now exists (dict_keys seen post).
  - destruct (existsb (String.eqb n) seen); [apply IH|].
    destruct (IH (n :: seen)) as (more & ->). now exists more.
Qed.

(** X2.  The options of the select box are the names of the files, each
    once, in the order in which the names are first listed: the options
    of an initial part of the listing are an initial part of the options.
    Every option has an id, that of a file listed under this name; and
    when a name is listed several times the id of the last one is the one
    kept. *)
Theorem file_options_dict :
  forall files : list (string * string),
    NoDup (dict_keys [] files) /\
    (forall name, In name (dict_keys [] files) <-> In name (map fst files)) /\
    (forall pre post,
       files = pre ++ post ->
       exists more, dict_keys [] files = dict_keys [] pre ++ more) /\
    (forall name, In name (dict_keys [] files) ->
       exists id, dict_get files name = Some id /\ In (name, id) files) /\
    (forall pre post k v,
       files = pre ++ (k, v) :: post -> ~ In k (map fst post) ->
       dict_get files k = Some v).
Proof.
  intro files. split; [apply dict_keys_NoDup|]. split; [|split; [|split]].
  - intro name. rewrite dict_keys_spec. cbn [In]. tauto.
  - intros pre post ->. apply dict_keys_app.
  - intros name Hin. apply dict_keys_spec in Hin. destruct Hin as (Hin & _).
    destruct (dict_get files name) as [id|] eqn:E.
    + exists id. split; [reflexivity|now apply dict_get_In].
    + apply dict_get_None in E. tauto.
  - intros pre post k v -> Hout. now apply dict_get_last.
Qed.

(** X2 on a listing with a name listed twice: the second option comes
    behind the first, and the repeated name keeps its last id. *)
Lemma file_options_dict_witness :
  (exists more : list string,
     dict_keys [] [("b.pdf", "1"); ("a.txt", "2"); ("b.pdf", "3")]
     = dict_keys [] [("b.pdf", "1")] ++ more) /\
  dict_get [("b.pdf", "1"); ("a.txt", "2"); ("b.pdf", "3")] "b.pdf"
  = Some "3".
Proof.
  pose proof (file_options_dict
                [("b.pdf", "1"); ("a.txt", "2"); ("b.pdf", "3")])
    as (_ & _ & Horder & _ & Hlast).
  split.
  - apply (Horder [("b.pdf", "1")] [("a.txt", "2"); ("b.pdf", "3")]).
    reflexivity.
  - apply (Hlast [("b.pdf", "1"); ("a.txt", "2")] [] "b.pdf" "3").
    + reflexivity.
    + intros [].
Defined.

Lemma supported_format (name : string) :
  supported name = true <-> format_of name <> None.
Proof.
  unfold supported, format_of.
  destruct (endswith (lower name) ".pdf"), (endswith (lower name) ".docx"),
    (endswith (lower name) ".txt"); cbn; split; congruence.
Qed.

(** X3.  The file a run processes is one the Drive folder lists, under
    the id it is listed with, it has a name that is not empty and a
    supported extension, and the button was pressed: a listed file is
    never turned down as an unsupported format. *)
Theorem selected_file_is_offered :
  forall (sv : Services) (w : Widgets) (name id : string),
    selected_file sv w = Some (name, id) ->
    process_button w = true /\
    name <> "" /\
    In (name, id) (fst (list_drive_files sv)) /\
    exists fmt, format_of name = Some fmt.
Proof.
  intros sv w name id. unfold selected_file.
  destruct (nth_error _ _) as [n|]; [|discriminate].
  destruct (truthy n && process_button w) eqn:E; [|discriminate].
  apply andb_prop in E. destruct E as (Ht & Hp).
  destruct (dict_get (supported_files sv) n) as [i|] eqn:Hg; [|discriminate].
  intro H. inversion H. subst n i.
  apply dict_get_In in Hg. unfold supported_files in Hg.
  apply filter_In in Hg. cbn [fst] in Hg. destruct Hg as (Hin & Hs).
  split; [exact Hp|]. split; [intros ->; discriminate|].
  split; [exact Hin|].
  apply supported_format in Hs.
  destruct (format_of name) as [fmt|]; [now exists fmt|congruence].
Qed.

Lemma selected_file_is_offered_witness :
  process_button press_process = true /\
  In ("notes.txt", "file-1")
     (fst (list_drive_files (sample_services true true))).
Proof.
  destruct (selected_file_is_offered (sample_services true true)
              press_process "notes.txt" "file-1") as (Hp & _ & Hin & _).
  - reflexivity.
  - split; [exact Hp|exact Hin].
Defined.

(** ** The effects of a run *)

Lemma chain_calls_app (a b : list Effect) :
  chain_calls (a ++ b) = chain_calls a ++ chain_calls b.
Proof.
  induction a as [|e a IH]; [reflexivity|].
  destruct e; cbn; now rewrite IH.
Qed.

Lemma chain_calls_none (l : list Effect) :
  (forall p, ~ In (call_qa_chain p) l) -> chain_calls l = [].
Proof.
  induction l as [|e l IH]; intro H; [reflexivity|].
  assert (Hl : chain_calls l = []).
  { apply IH. intros p Hp. apply (H p). now right. }
  destruct e; cbn; try exact Hl. exfalso. apply (H prompt). now left.
Qed.

Lemma sidebar_calls (sv : Services) (w : Widgets) :
  chain_calls (fst (sidebar sv w)) = [].
Proof.
  unfold sidebar, upload_to_drive.
  destruct (uploaded_file w) as [name|]; [|reflexivity].
  destruct (upload_button w); [|reflexivity].
  destruct (drive_create sv name) as [fid|]; [destruct (truthy fid)|];
    reflexivity.
Qed.

Lemma process_document_calls (sv : Services) (path name : string) :
  chain_calls (snd (process_document sv path name)) = [].
Proof.
  unfold process_document.
  destruct (format_of name) as [fmt|]; [|reflexivity].
  destruct (load sv fmt path) as [docs|]; [|reflexivity].
  destruct (split_documents text_splitter docs) as [[|c cs]|];
    try reflexivity.
  destruct (VectorStore.build (embed sv) (c :: cs)); reflexivity.
Qed.

Lemma document_column_calls (sv : Services) (w : Widgets) (s : SessionState) :
  chain_calls (snd (document_column sv w s)) = [].
Proof.
  unfold document_column.
  assert (Hl : chain_calls (snd (list_drive_files sv)) = []).
  { unfold list_drive_files. now destruct (drive_list sv). }
  destruct (supported_files sv).
  - cbn [snd]. now rewrite chain_calls_app, Hl.
  - destruct (selected_file sv w) as [[name id]|]; [|exact Hl].
    unfold download_file.
    destruct (drive_get_media sv id (local_path sv name)).
    + pose proof (process_document_calls sv (local_path sv name) name) as Hp.
      destruct (process_document sv (local_path sv name) name)
        as [[chain|] out']; cbn [snd] in *;
        now rewrite !chain_calls_app, Hl, Hp.
    + cbn [snd]. now rewrite chain_calls_app, Hl.
Qed.

Lemma shown_calls (s : SessionState) :
  chain_calls (document_banner s :: map show_message (history s)) = [].
Proof.
  apply chain_calls_none. intros p [H|H].
  - unfold document_banner in H. destruct (current_document s); discriminate.
  - apply in_map_iff in H. destruct H as (m & Hm & _). discriminate.
Qed.

(** The effects of a run that reaches the columns, in order; what follows
    the chat is the pass after [st.rerun()], which calls nothing. *)
Lemma main_effects (sv : Services) (w : Widgets) (s : SessionState) :
  reaches_columns sv w = true ->
  let s2 := init_messages (fst (document_column sv w s)) in
  exists tail : list Effect,
    snd (main sv w s) =
    fst (sidebar sv w) ++ snd (document_column sv w s) ++
    (document_banner s2 :: map show_message (history s2)) ++
    snd (chat sv w s2) ++ tail /\
    chain_calls tail = [].
Proof.
  intros Hr s2. pose proof (script_columns sv w s Hr) as Hs. cbn zeta in Hs.
  fold s2 in Hs. unfold main. rewrite Hs.
  destruct (snd (clear_chat w (fst (chat sv w s2)))).
  - pose proof (rerun_pass sv w (fst (clear_chat w (fst (chat sv w s2)))))
      as (_ & Hq).
    destruct (script sv (rerun_widgets w) _) as [[s' out'] r'].
    cbn [fst snd] in Hq. exists out'. cbn [snd].
    split; [|now apply chain_calls_none].
    now rewrite <- !app_assoc.
  - exists []. cbn [snd]. split; [|reflexivity]. now rewrite !app_nil_r.
Qed.

Lemma main_stopped (sv : Services) (w : Widgets) (s : SessionState) :
  drive_service sv && api_key_set sv = false ->
  main sv w s =
  (s, if drive_service sv then
        [st_warning
           ("⚠️ OpenAI API key not found. " ++
            "Please set the OPENAI_API_KEY environment variable.")%string]
      else snd (init_drive_service sv)).
Proof.
  intro H. unfold main. rewrite script_unfold.
  destruct (drive_service sv); [|reflexivity].
  destruct (api_key_set sv); [discriminate|reflexivity].
Qed.

(** X4.  When [init_drive_service] gives no service, or the API key is
    missing, a run shows one message and stops: the error that the
    credentials file was not found, else the error that building the
    service failed, else the warning about the key.  The session is
    returned as it was, and nothing is uploaded, listed, processed or
    asked, whatever the widgets hold. *)
Theorem stopped_run_changes_nothing :
  forall (sv : Services) (w : Widgets) (s : SessionState),
    drive_service sv = false \/ api_key_set sv = false ->
    fst (main sv w s) = s /\
    snd (main sv w s) =
    [if service_account_file sv then
       match drive_build sv with
       | Ok _ =>
           st_warning
             ("⚠️ OpenAI API key not found. " ++
              "Please set the OPENAI_API_KEY environment variable.")%string
       | Raise e =>
           st_error
             ("Failed to initialize Google Drive service: " ++ e)%string
       end
     else
       st_error
         "Service account file not found: credentials/service_account.json"].
Proof.
  intros sv w s H.
  assert (Hb : drive_service sv && api_key_set sv = false).
  { destruct H as [-> | ->]; [reflexivity|apply andb_false_r]. }
  rewrite (main_stopped sv w s Hb). cbn [fst snd].
  split; [reflexivity|].
  unfold drive_service, init_drive_service.
  destruct (service_account_file sv); [|reflexivity].
  now destruct (drive_build sv).
Qed.

Lemma stopped_run_changes_nothing_witness :
  fst (main (without_drive (sample_services true true))
         {| uploaded_file := Some "new.pdf"; upload_button := true;
            file_selector := 0; process_button := true;
            chat_input := Some "what is X"; clear_button := true |}
         indexed_session)
  = indexed_session /\
  snd (main (without_drive (sample_services true true))
         {| uploaded_file := Some "new.pdf"; upload_button := true;
            file_selector := 0; process_button := true;
            chat_input := Some "what is X"; clear_button := true |}
         indexed_session)
  = [st_error
       "Service account file not found: credentials/service_account.json"].
Proof.
  apply (stopped_run_changes_nothing
           (without_drive (sample_services true true))).
  now left.
Defined.

(** X5.  When listing the Drive folder fails, the run shows the listing
    error followed by the notice that there are no documents, the button
    processes nothing, and the chain and the document name stay. *)
Theorem listing_failure_is_shown :
  forall (sv : Services) (w : Widgets) (s : SessionState) (e : string),
    reaches_columns sv w = true -> drive_list sv = Raise e ->
    build_result sv w = None /\
    qa_chain (fst (main sv w s)) = qa_chain s /\
    current_document (fst (main sv w s)) = current_document s /\
    exists pre post : list Effect,
      snd (main sv w s) =
      pre ++ [st_error ("Error listing Drive files: " ++ e)%string;
              st_info "No documents found. Upload a document to get started."]
          ++ post.
Proof.
  intros sv w s e Hr He.
  assert (Hf : supported_files sv = []).
  { unfold supported_files, list_drive_files. now rewrite He. }
  assert (Hb : build_result sv w = None).
  { unfold build_result. now rewrite (no_files_no_selection sv w Hf). }
  split; [exact Hb|].
  pose proof (main_columns_view sv w s Hr) as Hv.
  rewrite document_column_state, Hb, clear_chat_view in Hv.
  apply view_inv in Hv. destruct Hv as (Hq & Hc & _).
  destruct (chat_chain sv w (init_messages s)) as (Hq2 & Hc2).
  destruct (init_messages_chain s) as (Hq3 & Hc3 & _).
  split; [congruence|]. split; [congruence|].
  destruct (main_effects sv w s Hr) as (tail & Hout & _).
  rewrite Hout. unfold document_column at 1. rewrite Hf.
  unfold list_drive_files. rewrite He. cbn [snd app].
  exists (fst (sidebar sv w)). eexists. reflexivity.
Qed.

Lemma listing_failure_is_shown_witness :
  build_result (with_listing (Raise "HttpError 403")
                  (sample_services true true)) press_process = None.
Proof.
  apply (listing_failure_is_shown
           (with_listing (Raise "HttpError 403") (sample_services true true))
           press_process indexed_session "HttpError 403"); reflexivity.
Defined.

(** X6.  A successful upload restarts the script: the success message
    comes first, the rest of the pass is skipped, so that whatever else
    was pressed or typed in this run does nothing to the session, and the
    chain is not called. *)
Theorem upload_restarts_the_script :
  forall (sv : Services) (w : Widgets) (s : SessionState)
         (name file_id : string),
    drive_service sv = true -> api_key_set sv = true ->
    uploaded_file w = Some name -> upload_button w = true ->
    drive_create sv name = Ok file_id -> file_id <> "" ->
    view (fst (main sv w s)) = view s /\
    chain_calls (snd (main sv w s)) = [] /\
    exists post : list Effect,
      snd (main sv w s) =
      st_success ("✅ File uploaded successfully! ID: " ++ file_id)%string
      :: post.
Proof.
  intros sv w s name file_id Hd Hk Hu Hb Hc Hid.
  assert (Hside : sidebar sv w =
                  ([st_success
                      ("✅ File uploaded successfully! ID: " ++ file_id)
                      %string], true)).
  { unfold sidebar, upload_to_drive. rewrite Hu, Hb, Hc.
    destruct file_id; [congruence|reflexivity]. }
  assert (Hs : script sv w s =
               (s, [st_success
                      ("✅ File uploaded successfully! ID: " ++ file_id)
                      %string], true)).
  { rewrite script_unfold. now rewrite Hd, Hk, Hside. }
  pose proof (rerun_pass sv w s) as (Hv & Hq).
  unfold main. rewrite Hs.
  destruct (script sv (rerun_widgets w) s) as [[s2 out2] r2].
  cbn [fst snd] in *. split; [exact Hv|]. split.
  - cbn. now apply chain_calls_none.
  - now exists out2.
Qed.

Lemma upload_restarts_the_script_witness :
  view (fst (main (with_upload "file-2" (sample_services true true))
               {| uploaded_file := Some "new.pdf"; upload_button := true;
                  file_selector := 0; process_button := true;
                  chat_input := Some "what is X"; clear_button := true |}
               indexed_session))
  = view indexed_session.
Proof.
  apply (upload_restarts_the_script
           (with_upload "file-2" (sample_services true true)) _
           indexed_session "new.pdf" "file-2"); try reflexivity.
  discriminate.
Defined.

(** X7.  A run whose processing fails, at the download or in
    [process_document], leaves the session to the document column as it was
    and shows an error. *)
Theorem failed_processing_is_reported :
  forall (sv : Services) (w : Widgets) (s : SessionState) (name : string),
    reaches_columns sv w = true ->
    build_result sv w = Some (name, None) ->
    fst (document_column sv w s) = s /\
    exists msg : string, In (st_error msg) (snd (main sv w s)).
Proof.
  intros sv w s name Hr Hb.
  split; [now rewrite document_column_state, Hb|].
  destruct (main_effects sv w s Hr) as (tail & Hout & _).
  assert (Hd : exists msg, In (st_error msg) (snd (document_column sv w s))).
  { unfold build_result in Hb. unfold document_column.
    destruct (supported_files sv) eqn:Hf.
    { now rewrite (no_files_no_selection sv w Hf) in Hb. }
    destruct (selected_file sv w) as [[n id]|]; [|discriminate].
    unfold download_file in *.
    destruct (drive_get_media sv id (local_path sv n)) as [u|e].
    - cbn [fst] in Hb.
      destruct (process_document sv (local_path sv n) n) as [[chain|] out'];
        [discriminate|].
      exists "❌ Failed to process document". cbn [snd].
      apply in_or_app. right. apply in_or_app. right.
      apply in_or_app. right. now left.
    - exists ("Error downloading file: " ++ e)%string. cbn [snd].
      apply in_or_app. right. now left. }
  destruct Hd as (msg & Hin). exists msg. rewrite Hout.
  apply in_or_app. right. apply in_or_app. now left.
Qed.

Lemma failed_processing_is_reported_witness :
  exists msg : string,
    In (st_error msg)
       (snd (main (sample_services false true) press_process fresh_session)).
Proof.
  apply (failed_processing_is_reported (sample_services false true)
           press_process fresh_session "notes.txt"); reflexivity.
Defined.

Lemma main_unreached (sv : Services) (w : Widgets) (s : SessionState) :
  reaches_columns sv w = false -> chain_calls (snd (main sv w s)) = [].
Proof.
  intro Hr. destruct (drive_service sv && api_key_set sv) eqn:Hb.
  - unfold reaches_columns in Hr. rewrite Hb in Hr. cbn [andb] in Hr.
    apply negb_false_iff in Hr.
    apply andb_prop in Hb. destruct Hb as (Hd & Hk).
    pose proof (rerun_pass sv w s) as (_ & Hq).
    pose proof (sidebar_calls sv w) as Hside.
    unfold main. rewrite script_unfold, Hd, Hk. cbn [negb].
    destruct (sidebar sv w) as [out0 r0]. cbn [fst snd] in *. subst r0.
    destruct (script sv (rerun_widgets w) s) as [[s2 out2] r2].
    cbn [fst snd] in *. rewrite chain_calls_app, Hside.
    now apply chain_calls_none.
  - rewrite (main_stopped sv w s Hb). cbn [snd].
    destruct (drive_service sv) eqn:Hd; [reflexivity|].
    destruct (init_drive_service_failed sv Hd) as (msg & ->). reflexivity.
Qed.

Lemma chat_calls (sv : Services) (w : Widgets) (s : SessionState) :
  chain_calls (snd (chat sv w s)) =
  match chat_input w, qa_chain s with
  | Some prompt, Some _ => if truthy prompt then [prompt] else []
  | _, _ => []
  end.
Proof.
  unfold chat. destruct (chat_input w) as [prompt|]; [|reflexivity].
  destruct (truthy prompt); [|now destruct (qa_chain s)].
  destruct (qa_chain s) as [chain|]; [|reflexivity].
  destruct (answer sv chain prompt) as [[response srcs]|e]; reflexivity.
Qed.

Lemma main_calls (sv : Services) (w : Widgets) (s : SessionState) :
  chain_calls (snd (main sv w s)) =
  if reaches_columns sv w then
    match chat_input w, qa_chain (fst (main sv w s)) with
    | Some prompt, Some _ => if truthy prompt then [prompt] else []
    | _, _ => []
    end
  else [].
Proof.
  destruct (reaches_columns sv w) eqn:Hr; [|now apply main_unreached].
  destruct (main_effects sv w s Hr) as (tail & -> & Ht).
  rewrite !chain_calls_app, sidebar_calls, document_column_calls, shown_calls,
    Ht, chat_calls, app_nil_r. cbn [app].
  rewrite main_chain, Hr.
  now destruct (init_messages_chain (fst (document_column sv w s))) as (-> & _).
Qed.

(** X8.  A run calls the chain at most once; a call is made with the
    question typed, which is not empty, and only with a chain in the
    session; and a run that reaches the chat with a question and a chain
    makes exactly that call. *)
Theorem chain_called_at_most_once :
  forall (sv : Services) (w : Widgets) (s : SessionState),
    length (chain_calls (snd (main sv w s))) <= 1 /\
    (forall p, In p (chain_calls (snd (main sv w s))) ->
       chat_input w = Some p /\ p <> "" /\
       qa_chain (fst (main sv w s)) <> None) /\
    (forall p chain,
       reaches_columns sv w = true -> chat_input w = Some p -> p <> "" ->
       qa_chain (fst (main sv w s)) = Some chain ->
       chain_calls (snd (main sv w s)) = [p]).
Proof.
  intros sv w s. rewrite main_calls. split; [|split].
  - destruct (reaches_columns sv w); [|cbn; lia].
    destruct (chat_input w) as [p|], (qa_chain (fst (main sv w s)));
      try (cbn; lia).
    destruct (truthy p); cbn; lia.
  - intros p Hin. destruct (reaches_columns sv w); [|destruct Hin].
    destruct (chat_input w) as [q|]; [|destruct Hin].
    destruct (qa_chain (fst (main sv w s))); [|destruct Hin].
    destruct (truthy q) eqn:Ht; [|destruct Hin].
    destruct Hin as [<-|[]]. split; [reflexivity|].
    split; [intros ->; discriminate|discriminate].
  - intros p chain -> -> Hp ->. destruct p; [congruence|reflexivity].
Qed.

Lemma chain_called_at_most_once_witness :
  chain_calls (snd (main (sample_services true true)
                      (type_question "what is X") indexed_session))
  = ["what is X"].
Proof.
  apply (proj2 (proj2 (chain_called_at_most_once (sample_services true true)
           (type_question "what is X") indexed_session))
           "what is X" sample_chain); try reflexivity.
  discriminate.
Defined.

(** X9.  When a question is answered with at least one source, the run
    shows the earlier turns, then the question, calls the chain, and shows
    the answer exactly as later runs replay the two recorded turns. *)
Theorem answer_is_shown_as_replayed :
  forall (sv : Services) (w : Widgets) (s : SessionState) (prompt : string)
         (chain : QAChain) (response : string) (srcs : list Document),
    reaches_columns sv w = true -> asks w prompt ->
    qa_chain s = Some chain ->
    answer sv chain prompt = Ok (response, srcs) -> srcs <> [] ->
    exists pre post : list Effect,
      snd (main sv w s) =
      pre ++ map show_message (history s) ++
      [show_message (user_turn prompt); call_qa_chain prompt;
       show_message (assistant_turn response srcs)] ++ post.
Proof.
  intros sv w s prompt chain response srcs Hr Ha Hq Hans Hne.
  destruct (main_effects sv w s Hr) as (tail & Hout & _).
  rewrite document_column_state, (asks_no_build sv w prompt Ha) in Hout.
  destruct (init_messages_chain s) as (Hq' & _ & Hh').
  rewrite Hh' in Hout.
  assert (Hc : snd (chat sv w (init_messages s)) =
               [show_message (user_turn prompt); call_qa_chain prompt;
                show_message (assistant_turn response srcs)]).
  { destruct Ha as (Hc & Ht & _). unfold chat.
    rewrite Hc, Ht, Hq', Hq, Hans. destruct srcs; [congruence|reflexivity]. }
  rewrite Hc in Hout. rewrite Hout.
  exists (fst (sidebar sv w) ++ snd (document_column sv w s) ++
          [document_banner (init_messages s)]), tail.
  repeat (rewrite <- app_assoc; cbn [app]). reflexivity.
Qed.

Lemma answer_is_shown_as_replayed_witness :
  In (show_message (assistant_turn "42" [sample_document]))
     (snd (main (sample_services true true) (type_question "what is X")
             indexed_session)).
Proof.
  destruct (answer_is_shown_as_replayed (sample_services true true)
              (type_question "what is X") indexed_session "what is X"
              sample_chain "42" [sample_document]) as (pre & post & ->);
    try reflexivity.
  - repeat split.
  - discriminate.
  - apply in_or_app. right. apply in_or_app. right. apply in_or_app. left.
    right. right. now left.
Defined.

(** ** The session over many runs *)

Lemma chat_history (sv : Services) (w : Widgets) (s : SessionState) :
  exists added : list Message,
    history (fst (chat sv w s)) = history s ++ added /\
    (added = [] \/
     exists (p : string) (turn : Message),
       chat_input w = Some p /\ qa_chain s <> None /\
       added = [user_turn p; turn] /\ role turn = assistant).
Proof.
  unfold chat. destruct (chat_input w) as [p|].
  2:{ exists []. rewrite app_nil_r. auto. }
  destruct (truthy p).
  2:{ exists []. rewrite app_nil_r. auto. }
  destruct (qa_chain s) as [chain|] eqn:Hq.
  2:{ exists []. rewrite app_nil_r. auto. }
  destruct (answer sv chain p) as [[response srcs]|e].
  - exists [user_turn p; assistant_turn response srcs]. cbn.
    rewrite <- app_assoc. split; [reflexivity|]. right.
    exists p, (assistant_turn response srcs).
    repeat split; congruence.
  - exists [user_turn p; error_turn e]. cbn.
    rewrite <- app_assoc. split; [reflexivity|]. right.
    exists p, (error_turn e). repeat split; congruence.
Qed.

Lemma main_history (sv : Services) (w : Widgets) (s : SessionState) :
  history (fst (main sv w s)) =
  if reaches_columns sv w then
    if clear_button w then []
    else history (fst (chat sv w
                         (init_messages (fst (document_column sv w s)))))
  else history s.
Proof.
  destruct (reaches_columns sv w) eqn:Hr.
  - pose proof (main_columns_view sv w s Hr) as Hv.
    rewrite clear_chat_view in Hv. apply view_inv in Hv. tauto.
  - pose proof (main_stopped_view sv w s Hr) as Hv. apply view_eq in Hv.
    tauto.
Qed.

Lemma column_history (sv : Services) (w : Widgets) (s : SessionState) :
  history (init_messages (fst (document_column sv w s))) = history s.
Proof.
  destruct (init_messages_chain (fst (document_column sv w s)))
    as (_ & _ & ->).
  rewrite document_column_state.
  destruct (build_result sv w) as [[name [chain|]]|]; reflexivity.
Qed.

(** X10.  A run in which the chat is not cleared keeps every earlier turn:
    the conversation grows by nothing, or by the question typed followed
    by one assistant turn. *)
Theorem history_is_append_only :
  forall (sv : Services) (w : Widgets) (s : SessionState),
    clear_button w = false ->
    exists added : list Message,
      history (fst (main sv w s)) = history s ++ added /\
      (added = [] \/
       exists (p : string) (turn : Message),
         chat_input w = Some p /\ added = [user_turn p; turn] /\
         role turn = assistant).
Proof.
  intros sv w s Hk. rewrite main_history, Hk.
  destruct (reaches_columns sv w).
  - destruct (chat_history sv w
                (init_messages (fst (document_column sv w s))))
      as (added & Hh & Ha).
    rewrite column_history in Hh. exists added. split; [exact Hh|].
    destruct Ha as [->|(p & turn & Hc & _ & Hadd & Hrole)]; [now left|].
    right. now exists p, turn.
  - exists []. rewrite app_nil_r. auto.
Qed.

Lemma history_is_append_only_witness :
  exists added : list Message,
    history (fst (main (sample_services true false) (type_question "why")
                    indexed_session))
    = history indexed_session ++ added.
Proof.
  destruct (history_is_append_only (sample_services true false)
              (type_question "why") indexed_session) as (added & H & _).
  - reflexivity.
  - now exists added.
Defined.

Lemma paired_app (l2 : list Message) :
  paired l2 -> forall l1 : list Message, paired l1 -> paired (l1 ++ l2).
Proof.
  intros H2 l1.
  enough (H : (paired l1 -> paired (l1 ++ l2)) /\
              (forall x, paired (x :: l1) -> paired (x :: l1 ++ l2)))
    by tauto.
  induction l1 as [|y l1 (IH1 & IH2)].
  - split; [intros _; exact H2|]. intros x [].
  - split; [apply IH2|].
    intros x (Hx & Hs & Hy & Hp). cbn [app paired]. auto.
Qed.

Lemma main_paired (sv : Services) (w : Widgets) (s : SessionState) :
  paired (history s) -> paired (history (fst (main sv w s))).
Proof.
  intro Hp. rewrite main_history.
  destruct (reaches_columns sv w); [|exact Hp].
  destruct (clear_button w); [exact I|].
  destruct (chat_history sv w
              (init_messages (fst (document_column sv w s))))
    as (added & -> & Ha).
  rewrite column_history. apply paired_app; [|exact Hp].
  destruct Ha as [->|(p & turn & _ & _ & -> & Hrole)]; [exact I|].
  cbn. auto.
Qed.

(** X11.  A conversation of question and reply pairs stays one over any
    sequence of runs. *)
Theorem history_stays_paired :
  forall (rs : list (Services * Widgets)) (s : SessionState),
    paired (history s) -> paired (history (runs rs s)).
Proof.
  induction rs as [|[sv w] rest IH]; intros s Hp; [exact Hp|].
  cbn [runs fst snd]. apply IH. now apply main_paired.
Qed.

(** X11 on an indexed session: one question is answered, the next one
    fails, and both are stored with their replies. *)
Lemma history_stays_paired_witness :
  history
    (runs [(sample_services true true, type_question "what is X");
           (sample_services true false, type_question "why")]
       indexed_session)
  = [user_turn "hi"; assistant_turn "42" [];
     user_turn "what is X"; assistant_turn "42" [sample_document];
     user_turn "why"; error_turn "timeout"] /\
  paired (history
            (runs [(sample_services true true, type_question "what is X");
                   (sample_services true false, type_question "why")]
               indexed_session)).
Proof.
  split; [reflexivity|].
  apply history_stays_paired. cbn. repeat split.
Defined.

Lemma process_document_settings (sv : Services) (path name : string)
      (chain : QAChain) :
  fst (process_document sv path name) = Some chain ->
  search_k chain = 4 /\ temperature chain = 0%Z /\ model_name chain = "gpt-4o".
Proof.
  unfold process_document.
  destruct (format_of name) as [fmt|]; [|discriminate].
  destruct (load sv fmt path) as [docs|]; [|discriminate].
  destruct (split_documents text_splitter docs) as [[|c cs]|];
    try discriminate.
  destruct (VectorStore.build (embed sv) (c :: cs)); [|discriminate].
  cbn. intro H. inversion H. auto.
Qed.

Lemma main_document (sv : Services) (w : Widgets) (s : SessionState) :
  current_document (fst (main sv w s)) =
  if reaches_columns sv w then current_document (fst (document_column sv w s))
  else current_document s.
Proof.
  destruct (reaches_columns sv w) eqn:Hr.
  - pose proof (main_columns_view sv w s Hr) as Hv.
    rewrite clear_chat_view in Hv. apply view_inv in Hv.
    destruct Hv as (_ & -> & _).
    rewrite (proj2 (chat_chain sv w _)).
    now destruct (init_messages_chain (fst (document_column sv w s)))
      as (_ & -> & _).
  - pose proof (main_stopped_view sv w s Hr) as Hv. apply view_eq in Hv.
    tauto.
Qed.

Lemma main_bound (sv : Services) (w : Widgets) (s : SessionState) :
  bound s -> bound (fst (main sv w s)).
Proof.
  intro Hb. unfold bound. rewrite main_chain, main_document.
  destruct (reaches_columns sv w); [|exact Hb].
  rewrite document_column_state.
  destruct (build_result sv w) as [[name [chain|]]|] eqn:E; try exact Hb.
  cbn [qa_chain current_document]. split; [split; discriminate|].
  intros c Hc. inversion Hc. subst c.
  exact (process_document_settings sv (local_path sv name) name chain
           (build_result_chain sv w name chain E)).
Qed.

(** X12.  Over any sequence of runs the chain and the document name are in
    the session together or not at all, and a chain in the session has
    the settings [process_document] gives it: four chunks per search,
    temperature 0, model gpt-4o. *)
Theorem chain_and_name_stay_together :
  forall (rs : list (Services * Widgets)) (s : SessionState),
    bound s -> bound (runs rs s).
Proof.
  induction rs as [|[sv w] rest IH]; intros s Hb; [exact Hb|].
  cbn [runs fst snd]. apply IH. now apply main_bound.
Qed.

Lemma chain_and_name_stay_together_witness :
  bound (runs [(sample_services true true, press_process);
               (sample_services false true, press_process)] fresh_session).
Proof.
  apply chain_and_name_stay_together.
  split; [split; reflexivity|discriminate].
Defined.

(** ** What is shown of a source *)

(** X13.  What is shown of a source is at most 503 characters long and
    agrees with the source on its first 500 characters: the whole text
    when it has at most 500 characters, else its first 500 followed by
    three dots. *)
Theorem preview_is_bounded :
  forall d : Document,
    length (preview d) <= 503 /\
    firstn 500 (preview d) = firstn 500 (page_content d) /\
    (length (page_content d) <= 500 -> preview d = page_content d) /\
    (500 < length (page_content d) ->
     preview d = firstn 500 (page_content d) ++ lit "...").
Proof.
  intro d. unfold preview.
  destruct (500 <? length (page_content d))%nat eqn:E.
  - apply Nat.ltb_lt in E. split; [|split; [|split]].
    + rewrite length_app, length_firstn.
      change (length (lit "...")) with 3. lia.
    + rewrite firstn_app, length_firstn.
      replace (500 - Nat.min 500 (length (page_content d))) with 0 by lia.
      rewrite firstn_O, app_nil_r, firstn_firstn. now rewrite Nat.min_id.
    + lia.
    + reflexivity.
  - apply Nat.ltb_ge in E. split; [|split; [|split]].
    + lia.
    + reflexivity.
    + reflexivity.
    + lia.
Qed.

Lemma preview_is_bounded_witness :
  preview {| page_content := repeat "a"%char 600; metadata := [] |}
  = firstn 500 (repeat "a"%char 600) ++ lit "...".
Proof.
  apply preview_is_bounded. cbn [page_content]. rewrite repeat_length. lia.
Defined.

(** ** Blank text and clean chunks *)

Lemma lstrip_suffix (s : text) :
  exists pre : text, s = pre ++ lstrip s /\ blank pre.
Proof.
  induction s as [|c r (pre & Hs & Hb)].
  - exists []. split; [reflexivity|constructor].
  - cbn [lstrip]. destruct (isspace c) eqn:E.
    + exists (c :: pre). split; [cbn; congruence|now constructor].
    + exists []. split; [reflexivity|constructor].
Qed.

Lemma lstrip_head (s : text) (a : ascii) (t : text) :
  lstrip s = a :: t -> isspace a = false.
Proof.
  induction s as [|c r IH]; cbn [lstrip]; [discriminate|].
  destruct (isspace c) eqn:E; [exact IH|]. intro H. inversion H. now subst.
Qed.

Lemma lstrip_blank (s : text) : blank s -> lstrip s = [].
Proof.
  induction 1 as [|c r Hc _ IH]; [reflexivity|]. cbn [lstrip]. now rewrite Hc.
Qed.

Lemma strip_blank (s : text) : blank s -> strip s = [].
Proof.
  intro H. unfold strip, rstrip. now rewrite (lstrip_blank s H).
Qed.

Lemma rstrip_prefix (y : text) :
  exists post : text, y = rstrip y ++ post.
Proof.
  unfold rstrip. destruct (lstrip_suffix (rev y)) as (pre & Hs & _).
  exists (rev pre). rewrite <- rev_app_distr, <- Hs. now rewrite rev_involutive.
Qed.

Lemma lstrip_lstrip (s : text) : lstrip (lstrip s) = lstrip s.
Proof.
  destruct (lstrip s) as [|a t] eqn:E; [reflexivity|].
  cbn [lstrip]. now rewrite (lstrip_head s a t E).
Qed.

Lemma strip_strip (s : text) : strip (strip s) = strip s.
Proof.
  unfold strip at 1. set (y := lstrip s).
  assert (Hl : lstrip (strip s) = strip s).
  { unfold strip. fold y. destruct (rstrip_prefix y) as (post & Hy).
    destruct (rstrip y) as [|a t] eqn:E; [reflexivity|].
    cbn [lstrip]. cbn in Hy.
    assert (Ha : isspace a = false)
      by (apply (lstrip_head s a (t ++ post)); exact Hy).
    now rewrite Ha. }
  rewrite Hl. unfold strip. fold y. unfold rstrip.
  now rewrite rev_involutive, lstrip_lstrip.
Qed.

Lemma lstrip_incl (s : text) : incl (lstrip s) s.
Proof.
  destruct (lstrip_suffix s) as (pre & Hs & _). intros c Hc.
  rewrite Hs. apply in_or_app. now right.
Qed.

Lemma strip_incl (s : text) : incl (strip s) s.
Proof.
  intros c Hc. unfold strip, rstrip in Hc. apply in_rev in Hc.
  apply lstrip_incl in Hc. apply in_rev in Hc. now apply lstrip_incl.
Qed.

Lemma split_incl (sp : ascii) (s : text) :
  forall p : text, In p (split sp s) -> incl p s.
Proof.
  induction s as [|c r IH]; intros p Hp; cbn [split] in Hp.
  - destruct Hp as [<-|[]]. intros x [].
  - destruct (Ascii.eqb c sp).
    + destruct Hp as [<-|Hp]; [intros x []|].
      intros x Hx. right. now apply (IH p).
    + destruct (split sp r) as [|w ws].
      * destruct Hp as [<-|[]]. intros x [->|[]]. now left.
      * destruct Hp as [<-|Hp].
        -- intros x [->|Hx]; [now left|]. right.
           apply (IH w); [now left|exact Hx].
        -- intros x Hx. right. apply (IH p); [now right|exact Hx].
Qed.

Lemma join_incl (sp : text) (w : list text) (c : ascii) :
  In c (join sp w) -> In c sp \/ exists p, In p w /\ In c p.
Proof.
  induction w as [|x r IH]; [intros []|].
  destruct r as [|y r'].
  - cbn. intro H. right. exists x. split; [now left|exact H].
  - change (join sp (x :: y :: r')) with (x ++ sp ++ join sp (y :: r')).
    intro H. apply in_app_or in H. destruct H as [H|H].
    + right. exists x. split; [now left|exact H].
    + apply in_app_or in H. destruct H as [H|H]; [now left|].
      destruct (IH H) as [Hs|(p & Hp & Hc)]; [now left|].
      right. exists p. split; [now right|exact Hc].
Qed.

(** The chunks of a text are stripped, not empty, and made of its
    characters and newlines. *)
Lemma split_text_clean (s : text) :
  exists chunks : list text,
    split_text text_splitter s = Some chunks /\
    Forall (fun c : text =>
              c <> [] /\ strip c = c /\
              forall x, In x c -> x = newline \/ In x s) chunks.
Proof.
  destruct (merge_splits_windows text_splitter text_splitter_overlap
              (pieces text_splitter s) (pieces_nonempty text_splitter s))
    as (ws & Hm & _ & _ & _ & Hi).
  exists (chunks_of text_splitter ws). split; [exact Hm|].
  apply Forall_forall. intros c Hc. unfold chunks_of in Hc.
  apply in_flat_map in Hc. destruct Hc as (kw & Hkw & Hc).
  unfold chunk_of in Hc.
  destruct (join_docs text_splitter (snd kw)) as [doc|] eqn:Hj; [|destruct Hc].
  destruct Hc as [<-|[]]. apply join_docs_Some in Hj. destruct Hj as (Hj & Hne).
  split; [exact Hne|]. split; [rewrite Hj; apply strip_strip|].
  intros x Hx. rewrite Hj in Hx. apply strip_incl in Hx.
  apply join_incl in Hx. destruct Hx as [[<-|[]]|(p & Hp & Hxp)]; [now left|].
  right. rewrite Forall_forall in Hi. apply (Hi kw Hkw) in Hp.
  unfold pieces in Hp. apply filter_In in Hp. destruct Hp as (Hp & _).
  exact (split_incl _ _ _ Hp x Hxp).
Qed.

Lemma split_text_blank (s : text) :
  blank s -> split_text text_splitter s = Some [].
Proof.
  intro Hb. destruct (split_text_clean s) as (chunks & Hs & Hc).
  rewrite Hs. f_equal. destruct chunks as [|c r]; [reflexivity|].
  exfalso. apply Forall_inv in Hc. destruct Hc as (Hne & Hst & Hin).
  apply Hne. rewrite <- Hst. apply strip_blank.
  apply Forall_forall. intros x Hx. destruct (Hin x Hx) as [->|Hxs].
  - reflexivity.
  - unfold blank in Hb. rewrite Forall_forall in Hb. now apply Hb.
Qed.

(** X14.  Splitting never raises; every chunk is non-empty, carries no
    white space at either end, has the metadata of one of the documents
    and is made of characters of that document and newlines. *)
Theorem split_documents_clean :
  forall documents : list Document,
    exists chunks : list Document,
      split_documents text_splitter documents = Some chunks /\
      Forall (fun c : Document =>
                page_content c <> [] /\
                strip (page_content c) = page_content c /\
                exists d : Document,
                  In d documents /\ metadata c = metadata d /\
                  forall x, In x (page_content c) ->
                            x = newline \/ In x (page_content d)) chunks.
Proof.
  induction documents as [|doc rest (more & Hrest & Hmore)].
  - exists []. split; [reflexivity|constructor].
  - destruct (split_text_clean (page_content doc)) as (cs & Hs & Hc).
    cbn [split_documents]. rewrite Hs, Hrest. eexists. split; [reflexivity|].
    apply Forall_app. split.
    + apply Forall_forall. intros c Hin. apply in_map_iff in Hin.
      destruct Hin as (t & <- & Ht). cbn [page_content metadata].
      rewrite Forall_forall in Hc. destruct (Hc t Ht) as (Hne & Hst & Hx).
      split; [exact Hne|]. split; [exact Hst|].
      exists doc. split; [now left|]. split; [reflexivity|exact Hx].
    + eapply Forall_impl; [|exact Hmore]. cbn beta.
      intros c (Hne & Hst & d & Hd & Hm & Hx).
      split; [exact Hne|]. split; [exact Hst|].
      exists d. split; [now right|]. now split.
Qed.

Lemma split_documents_blank (documents : list Document) :
  Forall (fun d : Document => blank (page_content d)) documents ->
  split_documents text_splitter documents = Some [].
Proof.
  induction 1 as [|doc rest Hb _ IH]; [reflexivity|].
  cbn [split_documents]. now rewrite (split_text_blank _ Hb), IH.
Qed.

(** X15.  A document whose pages hold nothing but white space, or that has
    no page, is turned down with the message that no text content was
    found, whatever the embedding service would do. *)
Theorem blank_document_is_rejected :
  forall (sv : Services) (path name : string) (fmt : Format)
         (documents : list Document),
    format_of name = Some fmt -> load sv fmt path = Ok documents ->
    Forall (fun d : Document => blank (page_content d)) documents ->
    process_document sv path name =
    (None, [st_error "No text content found in the document"]).
Proof.
  intros sv path name fmt documents Hf Hl Hb. unfold process_document.
  now rewrite Hf, Hl, (split_documents_blank documents Hb).
Qed.

Lemma blank_document_is_rejected_witness :
  process_document
    (with_documents
       (Ok [{| page_content := lit "  " ++ [newline; newline] ++ lit " ";
               metadata := [] |}])
       (sample_services true true)) "/tmp/empty.txt" "empty.txt"
  = (None, [st_error "No text content found in the document"]).
Proof.
  apply (blank_document_is_rejected _ _ _ TXT
           [{| page_content := lit "  " ++ [newline; newline] ++ lit " ";
               metadata := [] |}]); try reflexivity.
  constructor; [|constructor]. cbn [page_content].
  repeat constructor.
Defined.

(** ** More on single runs *)

(** X16.  A failed upload shows the Drive error and then the failure
    message, and the run goes on to the columns. *)
Theorem failed_upload_does_not_stop_the_run :
  forall (sv : Services) (w : Widgets) (s : SessionState) (name e : string),
    drive_service sv = true -> api_key_set sv = true ->
    uploaded_file w = Some name -> upload_button w = true ->
    drive_create sv name = Raise e ->
    reaches_columns sv w = true /\
    exists post : list Effect,
      snd (main sv w s) =
      [st_error ("Error uploading file: " ++ e)%string;
       st_error "❌ Failed to upload file"] ++ post.
Proof.
  intros sv w s name e Hd Hk Hu Hb Hc.
  assert (Hside : sidebar sv w =
                  ([st_error ("Error uploading file: " ++ e)%string;
                    st_error "❌ Failed to upload file"], false)).
  { unfold sidebar, upload_to_drive. now rewrite Hu, Hb, Hc. }
  assert (Hr : reaches_columns sv w = true).
  { unfold reaches_columns. now rewrite Hd, Hk, Hside. }
  split; [exact Hr|].
  destruct (main_effects sv w s Hr) as (tail & -> & _).
  rewrite Hside. cbn [fst]. eexists. reflexivity.
Qed.

Lemma failed_upload_does_not_stop_the_run_witness :
  reaches_columns (sample_services true true)
    {| uploaded_file := Some "new.pdf"; upload_button := true;
       file_selector := 0; process_button := false;
       chat_input := None; clear_button := false |} = true.
Proof.
  apply (failed_upload_does_not_stop_the_run (sample_services true true) _
           fresh_session "new.pdf" "offline"); reflexivity.
Defined.

(** X17.  An answered question adds the question as a user turn and the
    answer as an assistant turn with exactly the sources the chain
    returned; the chain and the document name stay. *)
Theorem answered_question_is_recorded :
  forall (sv : Services) (w : Widgets) (s : SessionState) (prompt : string)
         (chain : QAChain) (response : string) (srcs : list Document),
    reaches_columns sv w = true -> asks w prompt ->
    qa_chain s = Some chain ->
    answer sv chain prompt = Ok (response, srcs) ->
    view (fst (main sv w s)) =
    (qa_chain s, current_document s,
     history s ++ [user_turn prompt; assistant_turn response srcs]).
Proof.
  intros sv w s prompt chain response srcs Hr Ha Hq Hans.
  rewrite (asked_view sv w s prompt Hr Ha).
  destruct (init_messages_chain s) as (Hq' & Hc' & Hh').
  rewrite (chat_answered sv w (init_messages s) prompt chain response srcs Ha).
  - now rewrite Hq', Hc', Hh'.
  - now rewrite Hq'.
  - exact Hans.
Qed.

Lemma answered_question_is_recorded_witness :
  history (fst (main (sample_services true true) (type_question "what is X")
                  indexed_session))
  = [user_turn "hi"; assistant_turn "42" [];
     user_turn "what is X"; assistant_turn "42" [sample_document]].
Proof.
  pose proof (answered_question_is_recorded (sample_services true true)
                (type_question "what is X") indexed_session "what is X"
                sample_chain "42" [sample_document]) as H.
  apply (f_equal snd) in H; [exact H| | | |];
    try reflexivity; repeat split.
Defined.

(** X18.  A run in which no document is processed, nothing is asked and
    the chat is not cleared leaves the chain, the document name and the
    conversation as they were and does not call the chain. *)
Theorem idle_run_keeps_the_session :
  forall (sv : Services) (w : Widgets) (s : SessionState),
    process_button w = false -> chat_input w = None ->
    clear_button w = false ->
    view (fst (main sv w s)) = view s /\
    chain_calls (snd (main sv w s)) = [].
Proof.
  intros sv w s Hp Hc Hk. split.
  - destruct (reaches_columns sv w) eqn:Hr; [|now apply main_stopped_view].
    rewrite (main_columns_view sv w s Hr), (chat_silent sv w _ Hc),
      (clear_chat_idle w _ Hk). cbn [fst].
    rewrite init_messages_view, document_column_view.
    assert (Hb : build_result sv w = None).
    { unfold build_result, selected_file.
      destruct (nth_error _ _); [|reflexivity]. now rewrite Hp, andb_false_r. }
    now rewrite Hb.
  - rewrite main_calls, Hc. now destruct (reaches_columns sv w).
Qed.

Lemma idle_run_keeps_the_session_witness :
  view (fst (main (sample_services true true) idle_widgets indexed_session))
  = view indexed_session.
Proof.
  apply idle_run_keeps_the_session; reflexivity.
Defined.

Lemma main_keeps_document_loaded (sv : Services) (w : Widgets)
      (s : SessionState) :
  qa_chain s <> None /\ current_document s <> None ->
  qa_chain (fst (main sv w s)) <> None /\
  current_document (fst (main sv w s)) <> None.
Proof.
  intros (Hq & Hc). rewrite main_chain, main_document.
  destruct (reaches_columns sv w); [|now split].
  rewrite document_column_state.
  destruct (build_result sv w) as [[name [chain|]]|]; now split.
Qed.

(** X19.  Once a document is processed the session never goes back to
    having none: over any sequence of runs the chain and the document
    name stay present. *)
Theorem document_is_never_unloaded :
  forall (rs : list (Services * Widgets)) (s : SessionState),
    qa_chain s <> None /\ current_document s <> None ->
    qa_chain (runs rs s) <> None /\ current_document (runs rs s) <> None.
Proof.
  induction rs as [|[sv w] rest IH]; intros s H; [exact H|].
  cbn [runs fst snd]. apply IH. now apply main_keeps_document_loaded.
Qed.

Lemma document_is_never_unloaded_witness :
  qa_chain (runs [(sample_services false true, press_process);
                  (sample_services true true, press_clear);
                  (without_drive (sample_services true true), idle_widgets)]
              indexed_session) <> None.
Proof.
  apply (document_is_never_unloaded
           [(sample_services false true, press_process);
            (sample_services true true, press_clear);
            (without_drive (sample_services true true), idle_widgets)]
           indexed_session).
  split; discriminate.
Defined.

(** ** Short texts *)

Lemma split_not_nil (sp : ascii) (s : text) : split sp s <> [].
Proof.
  destruct s as [|c r]; cbn [split]; [discriminate|].
  destruct (Ascii.eqb c sp); [discriminate|].
  destruct (split sp r); discriminate.
Qed.

(** Joining what [split] cut gives the text back. *)
Lemma join_split (sp : ascii) (s : text) : join [sp] (split sp s) = s.
Proof.
  induction s as [|c r IH]; [reflexivity|]. cbn [split].
  pose proof (split_not_nil sp r) as Hn.
  destruct (Ascii.eqb c sp) eqn:E.
  - apply Ascii.eqb_eq in E. subst c.
    destruct (split sp r) as [|w ws]; [congruence|].
    change (join [sp] ([] :: w :: ws)) with ([] ++ [sp] ++ join [sp] (w :: ws)).
    cbn [app]. now rewrite IH.
  - destruct (split sp r) as [|w ws]; [congruence|].
    rewrite <- IH. destruct ws as [|w' ws']; reflexivity.
Qed.

Lemma sep_if_nonneg (ts : TextSplitter.t) (b : bool) : (0 <= sep_if ts b)%Z.
Proof. destruct b; unfold sep_if, len; lia. Qed.

Lemma sep_if_length (ts : TextSplitter.t) (a b : list text) :
  length a <= length b ->
  (sep_if ts (1 <? length a)%nat <= sep_if ts (1 <? length b)%nat)%Z.
Proof.
  intro H. destruct (1 <? length a)%nat eqn:Ea.
  - apply Nat.ltb_lt in Ea.
    replace (1 <? length b)%nat with true
      by (symmetry; apply Nat.ltb_lt; lia). lia.
  - apply sep_if_nonneg.
Qed.

Lemma filter_length_le (A : Type) (f : A -> bool) (l : list A) :
  length (filter f l) <= length l.
Proof.
  induction l as [|x r IH]; [cbn; lia|]. cbn. destruct (f x); cbn; lia.
Qed.

Lemma measure_filter (ts : TextSplitter.t) (l : list text) :
  (measure ts (filter nonempty l) <= measure ts l)%Z.
Proof.
  induction l as [|x r IH]; [cbn; lia|].
  pose proof (sep_if_nonneg ts (1 <? length (x :: r))%nat) as H0.
  pose proof (sep_if_length ts (x :: filter nonempty r) (x :: r)) as H1.
  pose proof (filter_length_le text nonempty r) as H2.
  rewrite (measure_cons ts x r). cbn [filter].
  destruct (nonempty x) eqn:E.
  - rewrite measure_cons. cbn [length] in H1. cbn [length].
    assert (S (length (filter nonempty r)) <= S (length r)) as H3 by lia.
    specialize (H1 H3). lia.
  - destruct x; [|discriminate]. change (len []) with 0%Z. lia.
Qed.

Lemma measure_prefix (ts : TextSplitter.t) (a b : list text) :
  (measure ts a <= measure ts (a ++ b))%Z.
Proof.
  induction b as [|x b IH] using rev_ind; [rewrite app_nil_r; lia|].
  rewrite app_assoc, measure_snoc.
  assert (0 <= len x)%Z by (unfold len; lia).
  assert (0 <= sep_if ts (1 <? length ((a ++ b) ++ [x]))%nat)%Z
    by (unfold sep_if, len; destruct (_ <? _)%nat; lia).
  lia.
Qed.

(** While everything fits, the loop only appends. *)
Lemma merge_loop_fits (ts : TextSplitter.t) (rest : list text) :
  forall (docs cd : list text),
    (measure ts (cd ++ rest) <= chunk_size ts)%Z ->
    merge_loop ts (docs, cd, measure ts cd) rest =
    Some (docs, cd ++ rest, measure ts (cd ++ rest)).
Proof.
  induction rest as [|d rest IH]; intros docs cd Hfit.
  - now rewrite app_nil_r.
  - cbn [merge_loop]. unfold merge_step.
    assert (Hd : (measure ts cd + len d
                  + sep_if ts (0 <? length cd)%nat)%Z
                 = measure ts (cd ++ [d])).
    { rewrite measure_snoc. now rewrite <- sep_if_shift. }
    rewrite Hd.
    pose proof (measure_prefix ts (cd ++ [d]) rest) as Hp.
    rewrite <- app_assoc in Hp. cbn [app] in Hp.
    replace (chunk_size ts <? measure ts (cd ++ [d]))%Z with false
      by (symmetry; apply Z.ltb_ge; lia).
    unfold push. rewrite <- sep_if_shift, Hd.
    rewrite (IH docs (cd ++ [d])) by (rewrite <- app_assoc; exact Hfit).
    now rewrite <- app_assoc.
Qed.

(** X20.  A text of at most 1000 characters gives at most one chunk: its
    non-empty lines joined by newlines and stripped, or none when that is
    empty. *)
Theorem short_text_is_one_chunk :
  forall s : text,
    length s <= 1000 ->
    split_text text_splitter s =
    match strip (join [newline] (pieces text_splitter s)) with
    | [] => Some []
    | c :: r => Some [c :: r]
    end.
Proof.
  intros s Hs. unfold split_text, merge_splits.
  assert (Hfit : (measure text_splitter ([] ++ pieces text_splitter s)
                  <= chunk_size text_splitter)%Z).
  { cbn [app]. unfold pieces.
    pose proof (measure_filter text_splitter
                  (split (separator text_splitter) s)) as Hf.
    unfold measure at 2 in Hf.
    change (sep text_splitter) with [newline] in Hf.
    change (separator text_splitter) with newline in Hf.
    rewrite join_split in Hf. unfold len in Hf.
    change (chunk_size text_splitter) with 1000%Z.
    change (separator text_splitter) with newline. lia. }
  pose proof (merge_loop_fits text_splitter (pieces text_splitter s) [] []
                Hfit) as Hloop.
  cbn [app] in Hloop. change (measure text_splitter []) with 0%Z in Hloop.
  rewrite Hloop. unfold join_docs.
  change (sep text_splitter) with [newline].
  now destruct (strip (join [newline] (pieces text_splitter s))).
Qed.

Lemma short_text_is_one_chunk_witness :
  split_text text_splitter
    (lit " alpha" ++ [newline; newline] ++ lit "beta" ++ [newline])
  = Some [lit "alpha" ++ [newline] ++ lit "beta"].
Proof.
  rewrite short_text_is_one_chunk; [reflexivity|]. cbn. lia.
Defined.

Close Scope string_scope.
